(** * sql-csv: a shallow embedding of [sql.py]

    The program is a read-eval-print loop over one SQLite connection with
    two extra commands, [import] (CSV file to new table) and [export]
    (last query to CSV file).  This file embeds its functions
    ([to_column_names], [to_db_value], [import_], [export], [print_table],
    [execute_sql], [run_repl]) together with the part of the Python
    runtime they call, and proves properties of them. *)

From Stdlib Require Import ZArith NArith List Bool Lia String Ascii.
From Stdlib Require Import SpecFloat.
From stdpp Require Import base decidable list gmap sets pretty.

(** ** Python strings

    A Python [str] is a sequence of Unicode code points; indexing and
    slicing ([str_[0]], [str_[1:]]) work on code points, so that is what a
    string is here. *)

Definition char := N.
Definition str := list char.

(** [lit "abc"] is the Python literal ['abc'] (ASCII text only). *)
Definition lit (x : string) : str := map N_of_ascii (list_ascii_of_string x).

Module Py.

Local Open Scope N_scope.

(** *** Formatting integers: [f'{n}'] and [str(n)] *)

Definition format_N (n : N) : str := lit (pretty n).
Definition format_Z (z : Z) : str := lit (pretty z).

(** *** [str.lower]

    Python lowercases with the full Unicode case mapping.  The only code
    points whose lowercase form contains an ASCII character are the
    ASCII capitals, U+0130 (which becomes [i] followed by U+0307, the one
    mapping that changes the length) and U+212A, the Kelvin sign (which
    becomes [k]).  Every other code point is mapped to exactly one code
    point outside ASCII; those are left as they are here, which the
    substitution [[^a-z0-9_]] that follows in [to_column_names] cannot
    tell apart. *)
Definition lower_char (c : char) : str :=
  if (65 <=? c) && (c <=? 90) then [c + 32]
  else if c =? 304 then [105; 775]
  else if c =? 8490 then [107]
  else [c].

Definition lower (s : str) : str := flat_map lower_char s.

(** *** [re.sub(r'[^a-z0-9_]', '_', s)] *)

Definition underscore : char := 95.

Definition is_identifier_char (c : char) : bool :=
  ((97 <=? c) && (c <=? 122)) || ((48 <=? c) && (c <=? 57)) || (c =? underscore).

Definition sub_non_identifier (s : str) : str :=
  map (fun c => if is_identifier_char c then c else underscore) s.

(** *** [re.sub(r'(?<=_)_+', '', s)]

    The regex engine scans the subject from left to right.  At a position
    whose previous character (in the subject) is an underscore and whose
    character is an underscore, the pattern matches; [_+] is greedy and
    takes the whole run, which is replaced by the empty string, and the
    scan resumes after the run.  Elsewhere the character is copied. *)
Definition is_underscore (c : char) : bool := c =? underscore.

Fixpoint skip_underscores (s : str) : str :=
  match s with
  | c :: rest => if is_underscore c then skip_underscores rest else s
  | [] => []
  end.

Fixpoint sub_underscore_run_scan (fuel : nat) (prev : option char) (s : str) : str :=
  match s with
  | [] => []
  | c :: rest =>
      match fuel with
      | O => s
      | S fuel' =>
          if match prev with Some p => is_underscore p | None => false end
             && is_underscore c
          then sub_underscore_run_scan fuel' (Some underscore) (skip_underscores rest)
          else c :: sub_underscore_run_scan fuel' (Some c) rest
      end
  end.

Definition sub_underscore_run (s : str) : str :=
  sub_underscore_run_scan (length s) None s.

(** *** Numbers from text: what [int(s)] and [float(s)] share

    Both constructors first turn the string into ASCII: an ASCII string
    is taken as it is; otherwise every code point below 127 is copied, a
    Unicode space becomes a blank, a Unicode decimal digit becomes the
    ASCII digit of the same value, and the first code point that is none
    of these becomes [?] and ends the text. *)

(** Code points at or above 127 for which [str.isspace] holds. *)
Definition is_unicode_space (c : char) : bool :=
  (c =? 133) || (c =? 160) || (c =? 5760) || ((8192 <=? c) && (c <=? 8202))
  || (c =? 8232) || (c =? 8233) || (c =? 8239) || (c =? 8287) || (c =? 12288).

(** The digit zero of every block of decimal digits (Unicode 14.0); the
    nine code points after each are the digits one to nine. *)
Definition decimal_zeros : list char :=
  [ 0x30; 0x660; 0x6f0; 0x7c0; 0x966; 0x9e6; 0xa66; 0xae6; 0xb66; 0xbe6;
    0xc66; 0xce6; 0xd66; 0xde6; 0xe50; 0xed0; 0xf20; 0x1040; 0x1090;
    0x17e0; 0x1810; 0x1946; 0x19d0; 0x1a80; 0x1a90; 0x1b50; 0x1bb0;
    0x1c40; 0x1c50; 0xa620; 0xa8d0; 0xa900; 0xa9d0; 0xa9f0; 0xaa50;
    0xabf0; 0xff10; 0x104a0; 0x10d30; 0x11066; 0x110f0; 0x11136; 0x111d0;
    0x112f0; 0x11450; 0x114d0; 0x11650; 0x116c0; 0x11730; 0x118e0;
    0x11950; 0x11c50; 0x11d50; 0x11da0; 0x16a60; 0x16ac0; 0x16b50;
    0x1d7ce; 0x1d7d8; 0x1d7e2; 0x1d7ec; 0x1d7f6; 0x1e140; 0x1e2f0;
    0x1e950; 0x1fbf0 ].

Definition to_decimal (c : char) : option N :=
  match find (fun z => (z <=? c) && (c <? z + 10)) decimal_zeros with
  | Some z => Some (c - z)
  | None => None
  end.

Definition question_mark : char := 63.

Fixpoint transform_loop (s : str) : str :=
  match s with
  | [] => []
  | c :: rest =>
      if c <? 127 then c :: transform_loop rest
      else if is_unicode_space c then 32 :: transform_loop rest
      else match to_decimal c with
           | Some d => (48 + d) :: transform_loop rest
           | None => [question_mark]
           end
  end.

Definition transform_decimal_and_space_to_ascii (s : str) : str :=
  if forallb (fun c => c <? 128) s then s else transform_loop s.

(** [Py_ISSPACE] and [Py_ISDIGIT] of the ASCII text. *)
Definition is_space (c : char) : bool := ((9 <=? c) && (c <=? 13)) || (c =? 32).
Definition is_digit (c : char) : bool := (48 <=? c) && (c <=? 57).

Fixpoint skip_spaces (s : str) : str :=
  match s with
  | c :: rest => if is_space c then skip_spaces rest else s
  | [] => []
  end.

(** The value of a sequence of decimal digits (given as numbers). *)
Definition digits_value (ds : list N) : N :=
  fold_left (fun acc d => 10 * acc + d) ds 0.

(** *** [int(s)]: [None] stands for [ValueError]

    After the blanks and the sign comes a run of digits in which single
    underscores may separate digits; only blanks may follow.  The run is
    scanned with the previous character at hand, as [long_from_string_base]
    does, and yields the digits and what follows them. *)
Fixpoint digit_run (prev : option char) (s : str) (acc : list N)
    : option (list N * str) :=
  match s with
  | c :: rest =>
      if is_digit c then digit_run (Some c) rest (acc ++ [c - 48])
      else if is_underscore c then
        match prev with
        | Some p => if is_underscore p then None
                    else digit_run (Some c) rest acc
        | None => None
        end
      else
        match prev with
        | Some p => if is_underscore p then None else Some (acc, s)
        | None => Some (acc, s)
        end
  | [] =>
      match prev with
      | Some p => if is_underscore p then None else Some (acc, [])
      | None => Some (acc, [])
      end
  end.

(** [_PY_LONG_MAX_STR_DIGITS_THRESHOLD]: shorter digit strings are never
    refused, whatever the limit. *)
Definition max_str_digits_threshold : N := 640.

(** [max_str_digits] is [sys.get_int_max_str_digits()]: 4300 by default
    since Python 3.11, 0 when the limit is off (and in older versions). *)
Definition int (max_str_digits : N) (s : str) : option Z :=
  let s1 := skip_spaces (transform_decimal_and_space_to_ascii s) in
  let '(negative, s2) :=
    match s1 with
    | 43 :: rest => (false, rest)
    | 45 :: rest => (true, rest)
    | _ => (false, s1)
    end in
  match digit_run None s2 [] with
  | Some (ds, rest) =>
      match ds, skip_spaces rest with
      | _ :: _, [] =>
          let digits := N.of_nat (length ds) in
          if (max_str_digits_threshold <? digits) && (0 <? max_str_digits)
             && (max_str_digits <? digits)
          then None
          else Some (if negative then - Z.of_N (digits_value ds)
                     else Z.of_N (digits_value ds))%Z
      | _, _ => None
      end
  | None => None
  end.

(** *** Floats

    A [float] is an IEEE 754 binary64 number, in the representation of
    the standard library's [SpecFloat]. *)
Definition prec : Z := 53.
Definition emax : Z := 1024.

(** The binary64 number nearest to [m * 10^e10] (ties to even), with the
    sign [negative]; infinite when that overflows. *)
Definition round_decimal (negative : bool) (m : N) (e10 : Z) : spec_float :=
  match m with
  | N0 => S754_zero negative
  | Npos p =>
      if (0 <=? e10)%Z
      then binary_round prec emax negative (p * Z.to_pos (10 ^ e10)) 0
      else SFdiv prec emax (S754_finite negative p 0)
             (S754_finite false (Z.to_pos (10 ^ (- e10))) 0)
  end.

(** [float(n)] for an integer [n]: the nearest binary64 number, and
    [OverflowError] ([None] here) when there is none in range. *)
Definition float_of_int (n : Z) : option spec_float :=
  match binary_normalize prec emax n 0 false with
  | S754_infinity _ => None
  | f => Some f
  end.

(** [float(s)] removes the underscores first; one is allowed only between
    two digits. *)
Fixpoint strip_underscores (prev : option char) (s : str) : option str :=
  match s with
  | [] =>
      match prev with
      | Some p => if is_underscore p then None else Some []
      | None => Some []
      end
  | c :: rest =>
      if is_underscore c then
        match prev with
        | Some p => if is_digit p then strip_underscores (Some c) rest else None
        | None => None
        end
      else
        match prev with
        | Some p =>
            if is_underscore p && negb (is_digit c) then None
            else option_map (cons c) (strip_underscores (Some c) rest)
        | None => option_map (cons c) (strip_underscores (Some c) rest)
        end
  end.

(** The longest prefix of digits, as numbers, and the rest. *)
Fixpoint span_digits (s : str) : list N * str :=
  match s with
  | c :: rest =>
      if is_digit c then
        let '(ds, rest') := span_digits rest in ((c - 48) :: ds, rest')
      else ([], s)
  | [] => ([], [])
  end.

Definition ascii_lower (c : char) : char :=
  if (65 <=? c) && (c <=? 90) then c + 32 else c.

Definition take_sign (s : str) : bool * str :=
  match s with
  | 43 :: rest => (false, rest)
  | 45 :: rest => (true, rest)
  | _ => (false, s)
  end.

(** [inf], [infinity] and [nan], in any case ([_Py_parse_inf_or_nan]). *)
Definition parse_inf_or_nan (negative : bool) (s : str) : option spec_float :=
  let l := map ascii_lower s in
  if decide (l = lit "inf" \/ l = lit "infinity") then Some (S754_infinity negative)
  else if decide (l = lit "nan") then Some S754_nan
  else None.

(** The exponent part: empty, or [e] or [E], a sign, and digits. *)
Definition parse_exponent (s : str) : option Z :=
  match s with
  | [] => Some 0%Z
  | c :: rest =>
      if (c =? 101) || (c =? 69) then
        let '(negative, rest1) := take_sign rest in
        match span_digits rest1 with
        | ((_ :: _) as ds, []) =>
            Some (if negative then - Z.of_N (digits_value ds)
                  else Z.of_N (digits_value ds))%Z
        | _ => None
        end
      else None
  end.

(** A decimal numeral: digits, a point and digits (at least one digit in
    all), and an exponent. *)
Definition parse_decimal (negative : bool) (s : str) : option spec_float :=
  let '(int_digits, s1) := span_digits s in
  let '(frac_digits, s2) :=
    match s1 with
    | 46 :: rest => span_digits rest
    | _ => ([], s1)
    end in
  match int_digits ++ frac_digits with
  | [] => None
  | ds =>
      match parse_exponent s2 with
      | Some e =>
          Some (round_decimal negative (digits_value ds)
                  (e - Z.of_nat (length frac_digits)))
      | None => None
      end
  end.

(** Blanks are removed at both ends ([float_from_string_inner]). *)
Definition strip_spaces (s : str) : str :=
  rev (skip_spaces (rev (skip_spaces s))).

(** [float(s)]: [None] stands for [ValueError]. *)
Definition float (s : str) : option spec_float :=
  let a := transform_decimal_and_space_to_ascii s in
  match (if existsb is_underscore a then strip_underscores None a else Some a) with
  | Some b =>
      let '(negative, body) := take_sign (strip_spaces b) in
      match parse_inf_or_nan negative body with
      | Some f => Some f
      | None => parse_decimal negative body
      end
  | None => None
  end.

End Py.

(** ** [to_column_names] *)

(** The two substitutions applied to each header. *)
Definition normalize (str_ : str) : str :=
  Py.sub_underscore_run (Py.sub_non_identifier (Py.lower str_)).

(** [while f'{str_}{suffix}' in column_name_set: suffix += 1], started with
    some fuel; [None] when the fuel runs out before the loop ends. *)
Fixpoint find_suffix (fuel : nat) (column_name_set : gset str) (str_ : str)
    (suffix : N) : option N :=
  match fuel with
  | O => None
  | S fuel' =>
      if decide (str_ ++ Py.format_N suffix ∈ column_name_set)
      then find_suffix fuel' column_name_set str_ (suffix + 1)%N
      else Some suffix
  end.

(** The name given to a column whose normalized header is [str_]. *)
Definition unique_name (column_name_set : gset str) (str_ : str) : option str :=
  if decide (str_ ∈ column_name_set) then
    match find_suffix (S (size column_name_set)) column_name_set str_ 2%N with
    | Some suffix => Some (str_ ++ Py.format_N suffix)
    | None => None
    end
  else Some str_.

(** The [for] loop, with its two accumulators. *)
Fixpoint to_column_names_loop (row : list str) (column_names : list str)
    (column_name_set : gset str) : option (list str) :=
  match row with
  | [] => Some column_names
  | str_ :: row' =>
      match unique_name column_name_set (normalize str_) with
      | Some name =>
          to_column_names_loop row' (column_names ++ [name])
            ({[ name ]} ∪ column_name_set)
      | None => None
      end
  end.

Definition to_column_names (row : list str) : option (list str) :=
  to_column_names_loop row [] ∅.



(** ** Values, exceptions and outcomes *)

(** What SQLite stores and returns: [None], [int], [float], [str] and
    [bytes] in Python. *)
Inductive db_value :=
| Null
| Integer (value : Z)
| Float (value : spec_float)
| Text (value : str)
| Blob (value : list N).

(** The exceptions that can occur.  All of them are subclasses of
    [Exception] but [KeyboardInterrupt], which is raised when the
    operator interrupts the program. *)
Inductive exception :=
| ValueError (message : str)
| OverflowError
| UnboundLocalError
| TypeError
| IndexError
| StopIteration
| EOFError
| OSError (message : str)
| CsvError (message : str)
| DatabaseError (message : str)
| KeyboardInterrupt.

(** [isinstance(e, Exception)] *)
Definition is_exception (e : exception) : bool :=
  match e with
  | KeyboardInterrupt => false
  | _ => true
  end.

(** How running a piece of code ends.  [OutOfFuel] is not an exception of
    the program: it marks a loop of the model that was given too little
    fuel, and no handler catches it. *)
Inductive outcome (A : Type) :=
| Returns (a : A)
| Raises (e : exception)
| OutOfFuel.
Arguments Returns {A} a.
Arguments Raises {A} e.
Arguments OutOfFuel {A}.

(** ** [to_db_value] *)

(** ['$€\xa5\xa3']: dollar, euro, yen, pound. *)
Definition currency_symbols : str := [36; 8364; 165; 163]%N.

(** [max_str_digits] is the interpreter's limit on the digits [int] accepts
    (see [Py.int]).  [OverflowError] is not a [ValueError], so the handler
    of the first [try] lets it through. *)
Definition to_db_value (max_str_digits : N) (str_ : str) : outcome db_value :=
  match str_ with
  | [] => Returns Null
  | first :: tail =>
      let str_without_currency :=
        if bool_decide (first ∈ currency_symbols) then tail else str_ in
      match Py.int max_str_digits str_without_currency with
      | Some value =>
          if ((- 2 ^ 63 <=? value) && (value <? 2 ^ 63))%Z
          then Returns (Integer value)
          else match Py.float_of_int value with
               | Some f => Returns (Float f)
               | None => Raises OverflowError
               end
      | None =>
          match Py.float str_without_currency with
          | Some f => Returns (Float f)
          | None => Returns (Text str_)
          end
      end
  end.

(** ** The world around the program

    Everything the program does to its surroundings is recorded, in order,
    in a log of events, each written down when the call is made, whether
    the call succeeds or not. *)

Inductive event :=
| Print (text : str)            (* print(text) *)
| PrintPart (text : str)        (* print(text, end='') *)
| Input (prompt : str)          (* input(prompt) *)
| OpenRead (filename : str)     (* open(filename) *)
| OpenWrite (filename : str)    (* open(filename, 'w') *)
| CloseFile (filename : str)    (* the end of a [with open] block *)
| ReadBatch                     (* list(itertools.islice(reader, 10000)) *)
| WriteRow (row : list db_value)  (* writer.writerow(row) *)
| Execute (sql : str)           (* execute(sql) on the connection or a cursor *)
| ExecuteMany (sql : str) (values : list (list db_value))
| Commit                        (* connection.commit() *)
| Fetch                         (* a row is asked of the cursor *)
| CloseCursor
| CloseConnection.

(** What the operator does at a prompt: a line is typed, or the program
    is interrupted (Ctrl-C).  A list of these that comes to its end is
    the end of the input. *)
Inductive keys :=
| Line (text : str)
| Interrupt.

Record world := { stdin : list keys; log : list event }.

(** What a statement gives back: [cursor.description] (the column
    names), [cursor.rowcount], and the rows.  The rows are not there at
    once: the cursor yields them one at a time when asked, first the rows
    [pending]; asked for a row after the last of them it raises
    [fetch_error] if there is one, and else says that there are no more. *)
Record cursor := {
  description : option (list str);
  pending : list (list db_value);
  fetch_error : option exception;
  rowcount : Z }.

(** An open CSV file as [csv.reader] reads it, one row at a time when
    asked: first the rows [csv_rows]; asked for a row after the last of
    them it raises [csv_error] if there is one ([csv.Error],
    [UnicodeDecodeError], an error of the disk), and else is at its end. *)
Record csv_reader := {
  csv_rows : list (list str);
  csv_error : option exception }.

(** The parts of the surroundings the program only asks questions of.  The
    file system and the store answer depending on what happened before
    (the log). *)
Record runtime := {
  int_max_str_digits : N;
  float_repr : spec_float -> str;          (* str(x) for a float *)
  bytes_repr : list N -> str;              (* str(x) for bytes *)
  builtin_message : exception -> str;      (* str(e), e raised by the interpreter *)
  read_csv : list event -> str -> exception + csv_reader;
  open_for_writing : list event -> str -> option exception;
  file_write : list event -> list db_value -> option exception;
  sqlite_execute : list event -> str -> exception + cursor;
  sqlite_executemany :
    list event -> str -> list (list db_value) -> option exception;
  sqlite_commit : list event -> option exception }.

(** [str(value)] *)
Definition py_str (rt : runtime) (value : db_value) : str :=
  match value with
  | Null => lit "None"
  | Integer n => Py.format_Z n
  | Float f => float_repr rt f
  | Text s => s
  | Blob b => bytes_repr rt b
  end.


(** *** The monad of the program: state and exceptions *)

Definition M (A : Type) : Type := world -> outcome A * world.

Global Instance M_ret : MRet M := fun A a w => (Returns a, w).
Global Instance M_bind : MBind M := fun A B f m w =>
  match m w with
  | (Returns a, w') => f a w'
  | (Raises e, w') => (Raises e, w')
  | (OutOfFuel, w') => (OutOfFuel, w')
  end.

Definition raise {A} (e : exception) : M A := fun w => (Raises e, w).
Definition out_of_fuel {A} : M A := fun w => (OutOfFuel, w).

(** A computation without effects that may raise. *)
Definition lift {A} (o : outcome A) : M A := fun w => (o, w).

Definition emit (ev : event) : M unit := fun w =>
  (Returns tt, {| stdin := stdin w; log := log w ++ [ev] |}).

Definition get_log : M (list event) := fun w => (Returns (log w), w).

Definition print (text : str) : M unit := emit (Print text).

(** [input(prompt)]: the prompt is shown and a line is read;
    [KeyboardInterrupt] when the operator interrupts instead of typing,
    [EOFError] at the end of the input. *)
Definition input (prompt : str) : M str := fun w =>
  let w' := {| stdin := stdin w; log := log w ++ [Input prompt] |} in
  match stdin w with
  | Line line :: rest => (Returns line, {| stdin := rest; log := log w' |})
  | Interrupt :: rest =>
      (Raises KeyboardInterrupt, {| stdin := rest; log := log w' |})
  | [] => (Raises EOFError, w')
  end.

(** [try: body finally: cleanup] *)
Definition finally_ {A} (body : M A) (cleanup : M unit) : M A := fun w =>
  match body w with
  | (OutOfFuel, w') => (OutOfFuel, w')
  | (o, w') =>
      match cleanup w' with
      | (Returns _, w'') => (o, w'')
      | (Raises e, w'') => (Raises e, w'')
      | (OutOfFuel, w'') => (OutOfFuel, w'')
      end
  end.

(** [try: body except Exception as exception: handler].  What is not an
    [Exception] is not caught. *)
Definition try_except {A} (body : M A) (handler : exception -> M A) : M A :=
  fun w =>
    match body w with
    | (Raises e, w') => if is_exception e then handler e w' else (Raises e, w')
    | r => r
    end.

(** [cursor.execute(sql)] and [connection.execute(sql)] *)
Definition execute (rt : runtime) (sql : str) : M cursor :=
  history ← get_log;
  emit (Execute sql);;
  match sqlite_execute rt history sql with
  | inl e => raise e
  | inr c => mret c
  end.

(** [connection.executemany(sql, values)] *)
Definition executemany (rt : runtime) (sql : str)
    (values : list (list db_value)) : M unit :=
  history ← get_log;
  emit (ExecuteMany sql values);;
  match sqlite_executemany rt history sql values with
  | Some e => raise e
  | None => mret tt
  end.

(** [connection.commit()] *)
Definition commit (rt : runtime) : M unit :=
  history ← get_log;
  emit Commit;;
  match sqlite_commit rt history with
  | Some e => raise e
  | None => mret tt
  end.

(** [writer.writerow(row)] *)
Definition writerow (rt : runtime) (row : list db_value) : M unit :=
  history ← get_log;
  emit (WriteRow row);;
  match file_write rt history row with
  | Some e => raise e
  | None => mret tt
  end.

(** ** [print_table] *)

(** The inner loop over one row: [if len(str(value)) > widths[index]:
    widths[index] = len(str(value))].  Reading [widths[index]] past the end
    of the list raises [IndexError]. *)
Fixpoint measure_row (rt : runtime) (row : list db_value) (index : nat)
    (widths : list nat) : outcome (list nat) :=
  match row with
  | [] => Returns widths
  | value :: row' =>
      match widths !! index with
      | None => Raises IndexError
      | Some width =>
          measure_row rt row' (S index)
            (if (width <? length (py_str rt value))%nat
             then <[index := length (py_str rt value)]> widths
             else widths)
      end
  end.

Fixpoint measure_table (rt : runtime) (table : list (list db_value))
    (widths : list nat) : outcome (list nat) :=
  match table with
  | [] => Returns widths
  | row :: table' =>
      match measure_row rt row 0 widths with
      | Returns widths' => measure_table rt table' widths'
      | o => o
      end
  end.

(** One cell: [f'| {str(value)}{" " * (width - len(str(value)))} '].  A
    string repeated a negative number of times is empty. *)
Definition cell_text (rt : runtime) (value : db_value) (width : nat) : str :=
  lit "| " ++ py_str rt value
    ++ repeat 32%N (width - length (py_str rt value)) ++ lit " ".

(** [for value, width in zip(row, widths): print(..., end='')] *)
Fixpoint print_cells (rt : runtime) (row : list db_value) (widths : list nat)
    : M unit :=
  match row, widths with
  | value :: row', width :: widths' =>
      emit (PrintPart (cell_text rt value width));;
      print_cells rt row' widths'
  | _, _ => mret tt
  end.

Fixpoint print_rows (rt : runtime) (table : list (list db_value))
    (widths : list nat) : M unit :=
  match table with
  | [] => mret tt
  | row :: table' =>
      print_cells rt row widths;;
      print (lit "|");;
      print_rows rt table' widths
  end.

Definition print_table (rt : runtime) (table : list (list db_value)) : M unit :=
  match table with
  | [] => mret tt
  | first :: _ =>
      widths ← lift (measure_table rt table (repeat 0%nat (length first)));
      print_rows rt table widths
  end.

(** ** [execute_sql] *)

(** [cursor.fetchone()], with [rows] the rows of the cursor [cur] not yet
    fetched: gives the next row, or [None] when there is none, and the
    rows that are left. *)
Definition fetchone (cur : cursor) (rows : list (list db_value))
    : M (option (list db_value) * list (list db_value)) :=
  emit Fetch;;
  match rows with
  | row :: rows' => mret (Some row, rows')
  | [] =>
      match fetch_error cur with
      | Some e => raise e
      | None => mret (None, [])
      end
  end.

(** A fetched row with the text [NULL] in place of [None]. *)
Definition null_to_text (value : db_value) : db_value :=
  match value with
  | Null => Text (lit "NULL")
  | _ => value
  end.

(** [for index in range(n)]: fetch a row, stop at [None], else append it
    to [rows].  Gives [rows] and the rows not yet fetched. *)
Fixpoint fetch_rows (n : nat) (cur : cursor) (unfetched rows : list (list db_value))
    : M (list (list db_value) * list (list db_value)) :=
  match n with
  | O => mret (rows, unfetched)
  | S n' =>
      fetched ← fetchone cur unfetched;
      match fetched with
      | (Some row, unfetched') =>
          fetch_rows n' cur unfetched' (rows ++ [map null_to_text row])
      | (None, unfetched') => mret (rows, unfetched')
      end
  end.

Definition truncated_message : str := lit "Output first 20 rows.".
Definition all_rows_message (n : nat) : str :=
  lit "Output all " ++ Py.format_N (N.of_nat n) ++ lit " row(s).".
Definition zero_rows_message : str := lit "Query returned zero rows.".
Definition modified_message (n : Z) : str :=
  lit "Modified " ++ Py.format_Z n ++ lit " row(s).".
Definition done_message : str := lit "Done.".

Definition execute_sql (rt : runtime) (query : str) : M bool :=
  finally_
    (cur ← execute rt query;
     commit rt;;
     fetched ← fetch_rows 20 cur (pending cur) [];
     let '(rows, unfetched) := fetched in
     match description cur with
     | Some columns =>
         print_table rt (map Text columns :: rows);;
         match rows with
         | _ :: _ =>
             another ← fetchone cur unfetched;
             match another with
             | (Some _, _) => print truncated_message
             | (None, _) => print (all_rows_message (length rows))
             end
         | [] => print zero_rows_message
         end;;
         mret true
     | None =>
         (if (0 <=? rowcount cur)%Z
          then print (modified_message (rowcount cur))
          else print done_message);;
         mret false
     end)
    (emit CloseCursor).

(** ** [export] *)

Definition export_progress_message (n : N) : str :=
  lit "Exported " ++ Py.format_N n ++ lit " rows...".
Definition export_total_message (n : N) : str :=
  lit "Exported " ++ Py.format_N n ++ lit " row(s).".

(** [for index, row in enumerate(cursor)], with [rows] the rows of the
    cursor [cur] not yet fetched.  Every turn asks the cursor for a row;
    the loop ends when there is none.  The variable [index] has no value
    until the first row arrives; the loop gives back its last value. *)
Fixpoint export_rows (rt : runtime) (cur : cursor) (rows : list (list db_value))
    (next : N) (index : option N) : M (option N) :=
  emit Fetch;;
  match rows with
  | [] =>
      match fetch_error cur with
      | Some e => raise e
      | None => mret index
      end
  | row :: rows' =>
      (if (next mod 10000 =? 0)%N && (0 <? next)%N
       then print (export_progress_message next)
       else mret tt);;
      writerow rt row;;
      export_rows rt cur rows' (next + 1)%N (Some next)
  end.

Definition export_prompt : str :=
  lit "Enter a CSV file to store the results of the most recent SQL query in: ".

Definition export (rt : runtime) (query : str) : M unit :=
  filename ← input export_prompt;
  finally_
    (cur ← execute rt query;
     history ← get_log;
     emit (OpenWrite filename);;
     match open_for_writing rt history filename with
     | Some e => raise e
     | None =>
         finally_
           (match description cur with
            | None => raise TypeError
            | Some header =>
                writerow rt (map Text header);;
                index ← export_rows rt cur (pending cur) 0%N None;
                match index with
                | Some i => print (export_total_message (i + 1))
                | None => raise UnboundLocalError
                end
            end)
           (emit (CloseFile filename))
     end)
    (emit CloseCursor).

(** ** [import_] *)

Definition quote : char := 34%N.

(** [sep.join(items)] *)
Fixpoint join (sep : str) (items : list str) : str :=
  match items with
  | [] => []
  | [item] => item
  | item :: items' => item ++ sep ++ join sep items'
  end.

(** [row.index(x)], for an [x] that is in [row]. *)
Fixpoint index_of (x : str) (row : list str) : nat :=
  match row with
  | [] => 0
  | y :: row' => if decide (y = x) then 0 else S (index_of x row')
  end.

(** [[to_db_value(str_) for str_ in row]] *)
Fixpoint coerce_row (max_str_digits : N) (row : list str)
    : outcome (list db_value) :=
  match row with
  | [] => Returns []
  | str_ :: row' =>
      match to_db_value max_str_digits str_ with
      | Returns v =>
          match coerce_row max_str_digits row' with
          | Returns vs => Returns (v :: vs)
          | o => o
          end
      | Raises e => Raises e
      | OutOfFuel => OutOfFuel
      end
  end.

(** [for row in rows: values.append([...])] *)
Fixpoint coerce_rows (max_str_digits : N) (rows : list (list str))
    : outcome (list (list db_value)) :=
  match rows with
  | [] => Returns []
  | row :: rows' =>
      match coerce_row max_str_digits row with
      | Returns vs =>
          match coerce_rows max_str_digits rows' with
          | Returns vss => Returns (vs :: vss)
          | o => o
          end
      | Raises e => Raises e
      | OutOfFuel => OutOfFuel
      end
  end.

(** The rows of one [executemany]: 10000. *)
Definition batch_size : nat := N.to_nat 10000.

(** [next(reader)]: the next row and the reader after it; at the end of
    the file [StopIteration]. *)
Definition next_row (reader : csv_reader)
    : outcome (list str * csv_reader) :=
  match csv_rows reader with
  | row :: rows =>
      Returns (row, {| csv_rows := rows; csv_error := csv_error reader |})
  | [] =>
      match csv_error reader with
      | Some e => Raises e
      | None => Raises StopIteration
      end
  end.

(** [list(itertools.islice(reader, 10000))]: the next 10000 rows, or the
    rows that are left when there are fewer, and the reader after them.
    [islice] stops asking after 10000 rows; with fewer it has asked for
    one row more than there are, which is when the reader's error
    shows. *)
Definition read_batch (reader : csv_reader)
    : M (list (list str) * csv_reader) :=
  emit ReadBatch;;
  if (batch_size <=? length (csv_rows reader))%nat
  then mret (take batch_size (csv_rows reader),
             {| csv_rows := drop batch_size (csv_rows reader);
                csv_error := csv_error reader |})
  else
    match csv_error reader with
    | Some e => raise e
    | None => mret (csv_rows reader, {| csv_rows := []; csv_error := None |})
    end.

Definition column_names_sql (column_names : list str) : str :=
  lit "(" ++ [quote] ++ join ([quote] ++ lit ", " ++ [quote]) column_names
    ++ [quote] ++ lit ")".

Definition create_table_sql (table_name : str) (column_names : list str) : str :=
  lit "CREATE TABLE " ++ [quote] ++ table_name ++ [quote] ++ lit " "
    ++ column_names_sql column_names ++ lit ";".

Definition insert_sql (table_name : str) (column_names : list str) : str :=
  lit "INSERT INTO " ++ [quote] ++ table_name ++ [quote] ++ lit " "
    ++ column_names_sql column_names ++ lit " VALUES ("
    ++ join (lit ", ") (repeat (lit "?") (length column_names)) ++ lit ");".

Definition import_progress_message (count : nat) : str :=
  lit "Imported " ++ Py.format_N (N.of_nat count) ++ lit " rows...".
Definition import_total_message (count : nat) : str :=
  lit "Imported " ++ Py.format_N (N.of_nat count) ++ lit " row(s).".
Definition import_table_message (table_name : str) (column_names : list str) : str :=
  lit "Imported table " ++ [quote] ++ table_name ++ [quote]
    ++ lit " with columns: " ++ join (lit ", ") column_names ++ lit ".".

(** [while rows:], with [rows] the batch at hand and [reader] the file
    after it; gives back [count].  Every turn with a batch that is not
    empty takes at least one row from the file, which bounds the turns. *)
Fixpoint import_rows (fuel : nat) (rt : runtime) (table_name : str)
    (column_names : list str) (count : nat) (rows : list (list str))
    (reader : csv_reader) : M nat :=
  match rows with
  | [] => mret count
  | _ :: _ =>
      match fuel with
      | O => out_of_fuel
      | S fuel' =>
          (if (0 <? count)%nat
           then print (import_progress_message count)
           else mret tt);;
          values ← lift (coerce_rows (int_max_str_digits rt) rows);
          executemany rt (insert_sql table_name column_names) values;;
          commit rt;;
          batch ← read_batch reader;
          import_rows fuel' rt table_name column_names (count + length rows)
            (fst batch) (snd batch)
      end
  end.

Definition no_header_message (header_row : list str) : str :=
  lit "There is no header in row 1, column "
    ++ Py.format_N (N.of_nat (index_of [] header_row + 1)).

Definition quotation_mark_message : str :=
  lit "The table name may not contain a quotation mark. Your entry will automatically be enclosed in quotation marks, so it should be an ordinary string rather than a quoted identifier.".

Definition import_prompt : str := lit "Enter a CSV file to import: ".
Definition table_prompt : str := lit "Enter a SQL table name: ".

Definition import_ (rt : runtime) : M unit :=
  filename ← input import_prompt;
  history ← get_log;
  emit (OpenRead filename);;
  match read_csv rt history filename with
  | inl e => raise e
  | inr file =>
      finally_
        (header ← lift (next_row file);
         let '(header_row, reader) := header in
         if bool_decide ([] ∈ header_row)
         then raise (ValueError (no_header_message header_row))
         else
           match to_column_names header_row with
           | None => out_of_fuel
           | Some column_names =>
               table_name ← input table_prompt;
               if bool_decide (quote ∈ table_name)
               then raise (ValueError quotation_mark_message)
               else
                 execute rt (create_table_sql table_name column_names);;
                 commit rt;;
                 batch ← read_batch reader;
                 count ← import_rows (S (length (csv_rows (snd batch)))) rt
                           table_name column_names 0 (fst batch) (snd batch);
                 print (import_total_message count);;
                 print (import_table_message table_name column_names)
           end)
        (emit (CloseFile filename))
  end.

(** ** [run_repl] *)







(** * Definitions used to state the properties *)

(** Scanning with a flag for "the previous character was an underscore",
    one character at a time. *)
Fixpoint scan_flag (after_underscore : bool) (s : str) : str :=
  match s with
  | [] => []
  | c :: rest =>
      if after_underscore && Py.is_underscore c then scan_flag true rest
      else c :: scan_flag (Py.is_underscore c) rest
  end.

(** Collapsing every run of underscores to one underscore, in other
    words: an underscore is dropped when the next character is an
    underscore too. *)
Fixpoint squeeze_underscores (s : str) : str :=
  match s with
  | [] => []
  | c :: rest =>
      if Py.is_underscore c
         && match rest with d :: _ => Py.is_underscore d | [] => false end
      then squeeze_underscores rest
      else c :: squeeze_underscores rest
  end.

(** Two underscores in a row somewhere in [s]. *)
Fixpoint has_double_underscore (s : str) : bool :=
  match s with
  | c :: (d :: _) as rest =>
      (Py.is_underscore c && Py.is_underscore d) || has_double_underscore rest
  | _ => false
  end.


(** The first character of [s], if any, is not an underscore. *)
Definition head_not_underscore (s : str) : Prop :=
  match s with
  | c :: _ => Py.is_underscore c = false
  | [] => True
  end.

(** What [to_column_names] does with one header [raw], given the names
    [earlier] chosen for the columns before it: the normalized header when
    that is free, else the normalized header followed by the least number
    from 2 on that gives a free name. *)
Definition names_column (earlier : list str) (raw name : str) : Prop :=
  (name ∉ earlier)
  /\ (normalize raw ∉ earlier -> name = normalize raw)
  /\ (normalize raw ∈ earlier ->
      exists suffix : N,
        (2 <= suffix)%N
        /\ name = normalize raw ++ Py.format_N suffix
        /\ forall k : N, (2 <= k < suffix)%N ->
             normalize raw ++ Py.format_N k ∈ earlier).

(** A cell holding the integer [10^309]: a one and 309 zeros. *)
Definition huge_integer_cell : str := lit "1" ++ repeat 48%N 309.

(** The ASCII digits for a list of digit values. *)
Definition digit_chars (ds : list N) : str := map (fun d => (48 + d)%N) ds.

(** A string in the form [normalize] produces: characters of [a-z0-9_]
    only, and no two underscores in a row. *)
Definition normal_form (s : str) : Prop :=
  Forall (fun c => Py.is_identifier_char c = true) s
  /\ has_double_underscore s = false.

(** *** Worlds *)

(** The world [w] after the events [evs]. *)
Definition after (w : world) (evs : list event) : world :=
  {| stdin := stdin w; log := log w ++ evs |}.

(** The world [w] after something was read at the prompt [prompt]. *)
Definition after_input (w : world) (prompt : str) : world :=
  {| stdin := tail (stdin w); log := log w ++ [Input prompt] |}.

(** The store and the file accept the inserts, the commits and the
    writes among the events [evs], each of them asked with the history
    there is when the events before it have happened after [history].
    Nothing is said about any other call or any other history. *)
Fixpoint accepts (rt : runtime) (history : list event) (evs : list event)
    : Prop :=
  match evs with
  | [] => True
  | ev :: evs' =>
      match ev with
      | ExecuteMany sql values =>
          sqlite_executemany rt history sql values = None
      | Commit => sqlite_commit rt history = None
      | WriteRow row => file_write rt history row = None
      | _ => True
      end
      /\ accepts rt (history ++ [ev]) evs'
  end.

(** A computation that, from every world, ends without running out of
    fuel and takes items only from the front of the input. *)
Definition settled {A} (m : M A) : Prop :=
  forall w, fst (m w) <> OutOfFuel
            /\ (length (stdin (snd (m w))) <= length (stdin w))%nat.

(** *** Runtimes for the worked examples *)

(** Every file holds the rows [csv] and can be read to its end, every
    statement succeeds with the cursor [cur], every commit and every
    write succeeds, and the digit limit is the default 4300. *)
Definition example_runtime (csv : list (list str)) (cur : cursor) : runtime :=
  {| int_max_str_digits := 4300;
     float_repr := fun _ => lit "0.0";
     bytes_repr := fun _ => lit "b''";
     builtin_message := fun _ => lit "error";
     read_csv := fun _ _ => inr {| csv_rows := csv; csv_error := None |};
     open_for_writing := fun _ _ => None;
     file_write := fun _ _ => None;
     sqlite_execute := fun _ _ => inr cur;
     sqlite_executemany := fun _ _ _ => None;
     sqlite_commit := fun _ => None |}.

(** A cursor with no description and no rows: what a statement that
    produces no rows gives. *)
Definition no_rows_cursor : cursor :=
  {| description := None; pending := []; fetch_error := None;
     rowcount := (-1)%Z |}.

(** A cursor with the columns [columns] that yields the rows [rows] and
    then ends. *)
Definition rows_cursor (columns : list str) (rows : list (list db_value))
    : cursor :=
  {| description := Some columns; pending := rows; fetch_error := None;
     rowcount := (-1)%Z |}.

(** A store that refuses every statement with the message [message]. *)
Definition refusing_runtime (message : str) : runtime :=
  {| int_max_str_digits := 4300;
     float_repr := fun _ => lit "0.0";
     bytes_repr := fun _ => lit "b''";
     builtin_message := fun _ => lit "error";
     read_csv := fun _ _ => inr {| csv_rows := []; csv_error := None |};
     open_for_writing := fun _ _ => None;
     file_write := fun _ _ => None;
     sqlite_execute := fun _ _ => inl (DatabaseError message);
     sqlite_executemany := fun _ _ _ => None;
     sqlite_commit := fun _ => None |}.

(** A store that runs every statement with the cursor [cur] and then
    refuses to commit, with the message [message]: what SQLite does for
    [INSERT ... RETURNING], whose rows have not been fetched when
    [execute_sql] commits, and when a deferred constraint is violated.
    Every file holds the rows [csv]. *)
Definition uncommitted_runtime (csv : list (list str)) (cur : cursor)
    (message : str) : runtime :=
  {| int_max_str_digits := 4300;
     float_repr := fun _ => lit "0.0";
     bytes_repr := fun _ => lit "b''";
     builtin_message := fun _ => lit "error";
     read_csv := fun _ _ => inr {| csv_rows := csv; csv_error := None |};
     open_for_writing := fun _ _ => None;
     file_write := fun _ _ => None;
     sqlite_execute := fun _ _ => inr cur;
     sqlite_executemany := fun _ _ _ => None;
     sqlite_commit := fun _ => Some (DatabaseError message) |}.

(** A store that knows one table, [t] with the columns [n] and [word]:
    it refuses every statement but the [CREATE TABLE] and the [INSERT]
    for it, and it refuses to insert a row that has not exactly two
    values.  The file holds the rows [csv] and then cannot be read
    further when [error] is given. *)
Definition one_table_runtime (csv : list (list str)) (error : option exception)
    : runtime :=
  {| int_max_str_digits := 4300;
     float_repr := fun _ => lit "0.0";
     bytes_repr := fun _ => lit "b''";
     builtin_message := fun _ => lit "error";
     read_csv := fun _ _ => inr {| csv_rows := csv; csv_error := error |};
     open_for_writing := fun _ _ => None;
     file_write := fun _ _ => None;
     sqlite_execute := fun _ sql =>
       if decide (sql = lit "CREATE TABLE " ++ [34%N] ++ lit "t" ++ [34%N]
                        ++ lit " (" ++ [34%N] ++ lit "n" ++ [34%N] ++ lit ", "
                        ++ [34%N] ++ lit "word" ++ [34%N] ++ lit ");")
       then inr no_rows_cursor
       else inl (DatabaseError (lit "syntax error"));
     sqlite_executemany := fun _ sql values =>
       if decide (sql = lit "INSERT INTO " ++ [34%N] ++ lit "t" ++ [34%N]
                        ++ lit " (" ++ [34%N] ++ lit "n" ++ [34%N] ++ lit ", "
                        ++ [34%N] ++ lit "word" ++ [34%N]
                        ++ lit ") VALUES (?, ?);")
       then if forallb (fun row => (length row =? 2)%nat) values
            then None
            else Some (DatabaseError (lit "Incorrect number of bindings supplied."))
       else Some (DatabaseError (lit "syntax error"));
     sqlite_commit := fun _ => None |}.

(** *** [print_table] and [execute_sql] *)

(** The length of the text of the cell in column [j] of [row]; 0 when the
    row has no such column. *)
Definition cell_length (rt : runtime) (j : nat) (row : list db_value) : nat :=
  match row !! j with
  | Some value => length (py_str rt value)
  | None => 0
  end.

(** The greatest length of a cell in column [j] of [table]. *)
Definition column_width (rt : runtime) (table : list (list db_value)) (j : nat)
    : nat :=
  list_max (map (cell_length rt j) table).

(** The widths of the first [n] columns of [table]. *)
Definition column_widths (rt : runtime) (table : list (list db_value)) (n : nat)
    : list nat :=
  map (column_width rt table) (seq 0 n).

(** The pieces [print_table] prints for one row, and for a table.  A
    cell is a bar, a space, the text of the value, spaces up to the width
    of the column, and one more space; the closing bar ends the line. *)
Definition cells_events (rt : runtime) (row : list db_value) (widths : list nat)
    : list event :=
  zip_with (fun value width =>
              PrintPart (lit "| " ++ py_str rt value
                           ++ repeat 32%N (width - length (py_str rt value))
                           ++ lit " "))
    row widths.

Definition rows_events (rt : runtime) (table : list (list db_value))
    (widths : list nat) : list event :=
  flat_map (fun row => cells_events rt row widths ++ [Print (lit "|")]) table.

(** The table [execute_sql] prints for the columns [columns] of a cursor
    that yields the rows [rows]: the header and the first 20 rows at
    most, with the text [NULL] in place of [None]. *)
Definition preview_table (columns : list str) (rows : list (list db_value))
    : list (list db_value) :=
  map Text columns :: map (map null_to_text) (take 20 rows).

(** The line [execute_sql] ends a preview with, for a result of [n] rows. *)
Definition preview_summary (n : nat) : str :=
  if (n =? 0)%nat then lit "Query returned zero rows."
  else if (n <=? 20)%nat
       then lit "Output all " ++ Py.format_N (N.of_nat n) ++ lit " row(s)."
       else lit "Output first 20 rows.".

(** The line [execute_sql] prints for a statement without rows. *)
Definition mutation_summary (cur : cursor) : str :=
  if (0 <=? rowcount cur)%Z
  then lit "Modified " ++ Py.format_Z (rowcount cur) ++ lit " row(s)."
  else lit "Done.".

(** *** [export] *)

(** What the loop of [export] does for the rows [rows], the first of them
    having the index [next]: each row is asked of the cursor and written
    when it has arrived, and before the row with index 10000, 20000, ...
    the count is printed. *)
Fixpoint export_events (rows : list (list db_value)) (next : N) : list event :=
  match rows with
  | [] => []
  | row :: rows' =>
      Fetch
      :: (if (next mod 10000 =? 0)%N && (0 <? next)%N
          then [Print (lit "Exported " ++ Py.format_N next ++ lit " rows...")]
          else [])
      ++ WriteRow row :: export_events rows' (next + 1)
  end.

(** The rows written to the file among the events [evs], in order. *)
Definition written_rows (evs : list event) : list (list db_value) :=
  omap (fun ev => match ev with WriteRow row => Some row | _ => None end) evs.

(** *** [import_] *)

(** The statements [import_] sends for the table [table_name] with the
    columns [column_names]: the names between quotation marks, and one
    question mark for each column. *)
Definition create_statement (table_name : str) (column_names : list str) : str :=
  lit "CREATE TABLE " ++ [34%N] ++ table_name ++ [34%N] ++ lit " ("
    ++ [34%N] ++ join ([34%N] ++ lit ", " ++ [34%N]) column_names ++ [34%N]
    ++ lit ");".

Definition insert_statement (table_name : str) (column_names : list str) : str :=
  lit "INSERT INTO " ++ [34%N] ++ table_name ++ [34%N] ++ lit " ("
    ++ [34%N] ++ join ([34%N] ++ lit ", " ++ [34%N]) column_names ++ [34%N]
    ++ lit ") VALUES ("
    ++ join (lit ", ") (map (fun _ => lit "?") column_names) ++ lit ");".

(** Cutting a list into pieces of [n] elements, the last one possibly
    shorter: what reading with [islice(reader, n)] until nothing comes
    gives. *)
Fixpoint chunks_fuel {A} (fuel n : nat) (l : list A) : list (list A) :=
  match fuel with
  | O => []
  | S fuel' =>
      match l with
      | [] => []
      | _ :: _ => take n l :: chunks_fuel fuel' n (drop n l)
      end
  end.

Definition chunks {A} (n : nat) (l : list A) : list (list A) :=
  chunks_fuel (length l) n l.

(** What the loop of [import_] does for the batches [batches], [count]
    rows having been imported before: for every batch but the very first
    the count so far is printed; then the batch is inserted with one
    statement and committed, and the next batch is read. *)
Fixpoint batches_events (sql : str) (count : nat)
    (batches : list (list (list db_value))) : list event :=
  match batches with
  | [] => []
  | batch :: batches' =>
      (if (0 <? count)%nat
       then [Print (lit "Imported " ++ Py.format_N (N.of_nat count)
                      ++ lit " rows...")]
       else [])
      ++ [ExecuteMany sql batch; Commit; ReadBatch]
      ++ batches_events sql (count + length batch) batches'
  end.

(** The inserts among the events [evs]: the rows of each, in order. *)
Definition inserted_batches (evs : list event) : list (list (list db_value)) :=
  omap (fun ev => match ev with
                  | ExecuteMany _ values => Some values
                  | _ => None
                  end) evs.

(** A CSV file for the worked example of [import_]: the headers [n] and
    [word], and 10003 rows holding the cells [7] and [x]. *)
Definition example_rows : list (list str) :=
  repeat [lit "7"; lit "x"] (N.to_nat 10003).
Definition example_csv : list (list str) := [lit "n"; lit "word"] :: example_rows.
(** * Properties *)

(** ** Strings and formatting *)

Lemma lit_inj x y : lit x = lit y -> x = y.
Proof.
  unfold lit. intros H.
  rewrite <- (string_of_list_ascii_of_string x).
  rewrite <- (string_of_list_ascii_of_string y).
  f_equal.
  revert H. generalize (list_ascii_of_string x) (list_ascii_of_string y).
  induction l as [|a l IH]; intros [|b l'] H; simpl in *; try discriminate.
  - reflexivity.
  - injection H as Hab Hl. f_equal; [| now apply IH].
    rewrite <- (ascii_N_embedding a), <- (ascii_N_embedding b).
    now rewrite Hab.
Qed.

Lemma format_N_inj m n : Py.format_N m = Py.format_N n -> m = n.
Proof. intros H. apply lit_inj in H. now apply (inj pretty) in H. Qed.

Lemma is_underscore_spec c : Py.is_underscore c = true <-> c = Py.underscore.
Proof. unfold Py.is_underscore. apply N.eqb_eq. Qed.

(** ** The second substitution of [normalize] *)

Lemma skip_underscores_length s :
  (length (Py.skip_underscores s) <= length s)%nat.
Proof.
  induction s as [|c s IH]; simpl; [lia|].
  destruct (Py.is_underscore c); simpl; lia.
Qed.

Lemma scan_flag_skip s : scan_flag true (Py.skip_underscores s) = scan_flag true s.
Proof.
  induction s as [|c s IH]; simpl; [reflexivity|].
  destruct (Py.is_underscore c) eqn:E; simpl; [exact IH|].
  rewrite E. reflexivity.
Qed.

Lemma scan_enough_fuel fuel : forall prev s,
  (length s <= fuel)%nat ->
  Py.sub_underscore_run_scan fuel prev s
  = scan_flag (match prev with Some p => Py.is_underscore p | None => false end) s.
Proof.
  induction fuel as [|fuel IH]; intros prev [|c s] Hlen; simpl in *;
    try reflexivity; try lia.
  destruct (match prev with Some p => Py.is_underscore p | None => false end
            && Py.is_underscore c) eqn:E.
  - rewrite IH.
    + simpl. replace (Py.is_underscore Py.underscore) with true by reflexivity.
      apply scan_flag_skip.
    + pose proof (skip_underscores_length s). lia.
  - rewrite IH by lia. reflexivity.
Qed.

Lemma squeeze_scan s :
  squeeze_underscores (Py.underscore :: s) = Py.underscore :: scan_flag true s
  /\ squeeze_underscores s = scan_flag false s.
Proof.
  induction s as [|d r [IHP IHQ]].
  - split; reflexivity.
  - assert (Q : squeeze_underscores (d :: r) = scan_flag false (d :: r)).
    { cbn [scan_flag andb]. destruct (Py.is_underscore d) eqn:E.
      - apply is_underscore_spec in E. subst d. exact IHP.
      - cbn [squeeze_underscores]. rewrite E. cbn [andb]. now rewrite IHQ. }
    split; [|exact Q].
    destruct (Py.is_underscore d) eqn:E.
    + change (squeeze_underscores (Py.underscore :: d :: r))
        with (if Py.is_underscore Py.underscore && Py.is_underscore d
              then squeeze_underscores (d :: r)
              else Py.underscore :: squeeze_underscores (d :: r)).
      rewrite E. cbn [andb scan_flag].
      replace (Py.is_underscore Py.underscore) with true by reflexivity.
      rewrite E. cbn [andb].
      apply is_underscore_spec in E. subst d. exact IHP.
    + change (squeeze_underscores (Py.underscore :: d :: r))
        with (if Py.is_underscore Py.underscore && Py.is_underscore d
              then squeeze_underscores (d :: r)
              else Py.underscore :: squeeze_underscores (d :: r)).
      rewrite E. rewrite andb_false_r. rewrite Q.
      cbn [scan_flag andb]. rewrite E. reflexivity.
Qed.

Lemma sub_underscore_run_squeeze s :
  Py.sub_underscore_run s = squeeze_underscores s.
Proof.
  unfold Py.sub_underscore_run. rewrite scan_enough_fuel by lia.
  symmetry. apply squeeze_scan.
Qed.

Lemma scan_flag_no_double s : forall b,
  has_double_underscore (scan_flag b s) = false
  /\ (b = true -> head_not_underscore (scan_flag b s)).
Proof.
  induction s as [|c r IH]; intros b; [split; [reflexivity|intros; exact I]|].
  cbn [scan_flag]. destruct (b && Py.is_underscore c) eqn:E.
  - destruct (IH true) as [Hnd Hhd]. split; [exact Hnd | intros _; now apply Hhd].
  - destruct (IH (Py.is_underscore c)) as [Hnd Hhd]. split.
    + cbn [has_double_underscore].
      destruct (scan_flag (Py.is_underscore c) r) as [|d t] eqn:Et; [reflexivity|].
      rewrite Hnd, orb_false_r.
      destruct (Py.is_underscore c) eqn:Ec; [|reflexivity].
      cbn [andb]. exact (Hhd eq_refl).
    + intros ->. cbn [andb] in E. exact E.
Qed.

Lemma squeeze_fixpoint s :
  has_double_underscore s = false -> squeeze_underscores s = s.
Proof.
  induction s as [|c r IH]; [reflexivity|].
  cbn [has_double_underscore squeeze_underscores].
  destruct r as [|d t].
  - intros _. now rewrite andb_false_r.
  - intros H. apply orb_false_iff in H as [H1 H2]. rewrite H1.
    f_equal. now apply IH.
Qed.

Lemma sub_non_identifier_chars s :
  Forall (fun c => Py.is_identifier_char c = true) (Py.sub_non_identifier s).
Proof.
  unfold Py.sub_non_identifier. apply Forall_forall. intros c Hc.
  apply list_elem_of_In, in_map_iff in Hc as (x & <- & _).
  destruct (Py.is_identifier_char x) eqn:E; [exact E | reflexivity].
Qed.

Lemma squeeze_sublist (P : char -> Prop) s :
  Forall P s -> Forall P (squeeze_underscores s).
Proof.
  induction 1 as [|c r Hc Hr IH]; [constructor|].
  cbn [squeeze_underscores].
  destruct (Py.is_underscore c && _); [exact IH | now constructor].
Qed.

(** C5, as amended.  [normalize] lowercases the header, replaces every
    character outside [a-z0-9_] by an underscore, and then collapses every
    run of underscores, leading and trailing runs included, to a single
    underscore: the result has no two underscores in a row, is made of
    characters of [a-z0-9_] only, and is the substituted header itself
    when that has no two underscores in a row.  A header that reads
    [__a__] after the first substitution becomes [_a_]. *)
Theorem normalize_collapses_every_run (str_ : str) :
  normalize str_ = squeeze_underscores (Py.sub_non_identifier (Py.lower str_))
  /\ has_double_underscore (normalize str_) = false
  /\ Forall (fun c => Py.is_identifier_char c = true) (normalize str_)
  /\ (has_double_underscore (Py.sub_non_identifier (Py.lower str_)) = false ->
      normalize str_ = Py.sub_non_identifier (Py.lower str_))
  /\ normalize (lit "__a__") = lit "_a_"
  /\ normalize (lit "  Unit  Price ($)") = lit "_unit_price_".
Proof.
  assert (E : normalize str_
              = squeeze_underscores (Py.sub_non_identifier (Py.lower str_)))
    by apply sub_underscore_run_squeeze.
  split; [exact E|]. split; [|split; [|split]].
  - rewrite E. destruct (squeeze_scan (Py.sub_non_identifier (Py.lower str_)))
      as [_ ->]. apply scan_flag_no_double.
  - rewrite E. apply squeeze_sublist, sub_non_identifier_chars.
  - intros H. rewrite E. now apply squeeze_fixpoint.
  - split; vm_compute; reflexivity.
Qed.

Lemma normalize_collapses_every_run_witness :
  has_double_underscore (Py.sub_non_identifier (Py.lower (lit "_Unit Price_"))) = false
  /\ normalize (lit "_Unit Price_") = Py.sub_non_identifier (Py.lower (lit "_Unit Price_")).
Proof.
  split; [reflexivity|].
  destruct (normalize_collapses_every_run (lit "_Unit Price_"))
    as (_ & _ & _ & H & _).
  apply H. reflexivity.
Defined.

(** C5, as the specification words it, fails: the header [__a__] is
    unchanged by the first substitution and loses an underscore at each
    end in the second. *)
Lemma normalize_keeps_double_underscore_cex :
  Py.sub_non_identifier (Py.lower (lit "__a__")) = lit "__a__"
  /\ normalize (lit "__a__") <> lit "__a__".
Proof. split; [reflexivity | vm_compute; intros H; discriminate H]. Qed.

(** ** [to_column_names] *)

Lemma lower_nonempty s : s <> [] -> Py.lower s <> [].
Proof.
  destruct s as [|c s]; [congruence|]. intros _.
  unfold Py.lower. cbn [flat_map]. unfold Py.lower_char.
  repeat match goal with |- context [if ?b then _ else _] => destruct b end;
    discriminate.
Qed.

Lemma normalize_nonempty s : s <> [] -> normalize s <> [].
Proof.
  intros Hs. unfold normalize. rewrite sub_underscore_run_squeeze.
  pose proof (lower_nonempty s Hs) as Hl.
  destruct (Py.lower s) as [|c l]; [congruence|].
  destruct (squeeze_scan (Py.sub_non_identifier (c :: l))) as [_ ->].
  discriminate.
Qed.

(** The loop that looks for a free suffix. *)

Lemma find_suffix_none (fuel : nat) (X : gset str) (b : str) : forall k : N,
  find_suffix fuel X b k = None ->
  forall i, (i < fuel)%nat -> b ++ Py.format_N (k + N.of_nat i) ∈ X.
Proof.
  induction fuel as [|fuel IH]; intros k H i Hi; [lia|].
  cbn [find_suffix] in H.
  destruct (decide (b ++ Py.format_N k ∈ X)) as [Hin|]; [|discriminate].
  destruct i as [|i].
  - now rewrite N.add_0_r.
  - replace (k + N.of_nat (S i))%N with (k + 1 + N.of_nat i)%N by lia.
    apply IH; [exact H | lia].
Qed.

Lemma find_suffix_some (fuel : nat) (X : gset str) (b : str) : forall k j : N,
  find_suffix fuel X b k = Some j ->
  (k <= j)%N /\ (b ++ Py.format_N j ∉ X)
  /\ forall i, (k <= i < j)%N -> b ++ Py.format_N i ∈ X.
Proof.
  induction fuel as [|fuel IH]; intros k j H; [discriminate|].
  cbn [find_suffix] in H.
  destruct (decide (b ++ Py.format_N k ∈ X)) as [Hin|Hout].
  - apply IH in H as (Hle & Hfree & Hbelow).
    split; [lia|]. split; [exact Hfree|].
    intros i Hi. destruct (decide (i = k)) as [->|Hne]; [exact Hin|].
    apply Hbelow. lia.
  - injection H as <-. split; [lia|]. split; [exact Hout|]. intros i Hi. lia.
Qed.

(** With one more turn than the set has elements the loop finds a suffix:
    the candidates are pairwise distinct, so they cannot all be in the
    set. *)
Lemma find_suffix_enough_fuel (X : gset str) (b : str) (k : N) :
  find_suffix (S (size X)) X b k <> None.
Proof.
  intros H.
  pose proof (find_suffix_none _ _ _ _ H) as Hall.
  set (cand := map (fun i => b ++ Py.format_N (k + N.of_nat i)) (seq 0 (S (size X)))).
  assert (Hnd : NoDup cand).
  { unfold cand. apply NoDup_fmap_2; [|apply NoDup_seq].
    intros i j Hij. apply app_inv_head, format_N_inj in Hij. lia. }
  assert (Hsub : cand ⊆+ elements X).
  { apply NoDup_submseteq; [exact Hnd|]. intros x Hx.
    apply elem_of_elements. unfold cand in Hx.
    apply list_elem_of_fmap in Hx as (i & -> & Hi).
    apply Hall. apply elem_of_seq in Hi. lia. }
  apply submseteq_length in Hsub.
  unfold cand in Hsub. rewrite length_map, length_seq in Hsub.
  change (length (elements X)) with (size X) in Hsub. lia.
Qed.

Lemma unique_name_spec (X : gset str) (b : str) :
  exists name, unique_name X b = Some name
    /\ (name ∉ X)
    /\ (b ∉ X -> name = b)
    /\ (b ∈ X -> exists suffix : N,
          (2 <= suffix)%N /\ name = b ++ Py.format_N suffix
          /\ forall k : N, (2 <= k < suffix)%N -> b ++ Py.format_N k ∈ X).
Proof.
  unfold unique_name. destruct (decide (b ∈ X)) as [Hin|Hout].
  - destruct (find_suffix (S (size X)) X b 2) as [j|] eqn:E.
    + apply find_suffix_some in E as (Hle & Hfree & Hbelow).
      exists (b ++ Py.format_N j). split; [reflexivity|]. split; [exact Hfree|].
      split; [intros Hc; contradiction|].
      intros _. exists j. auto.
    + now apply find_suffix_enough_fuel in E.
  - exists b. split; [reflexivity|]. split; [exact Hout|].
    split; [reflexivity | intros Hc; contradiction].
Qed.

(** The [for] loop: from names chosen so far (held both as a list and as a
    set) it returns, it extends the list by one name per header, and each
    new name is chosen as [names_column] says. *)
Lemma to_column_names_loop_spec (row : list str) :
  forall (names : list str) (X : gset str),
  X = list_to_set names ->
  exists new,
    to_column_names_loop row names X = Some (names ++ new)
    /\ length new = length row
    /\ forall i raw name, row !! i = Some raw -> new !! i = Some name ->
         names_column (names ++ take i new) raw name.
Proof.
  induction row as [|raw0 row IH]; intros names X HX.
  - exists []. cbn. rewrite app_nil_r. split; [reflexivity|].
    split; [reflexivity|]. intros i raw name H. now rewrite lookup_nil in H.
  - cbn [to_column_names_loop].
    destruct (unique_name_spec X (normalize raw0)) as (n0 & -> & Hfree & Hsame & Hsuf).
    destruct (IH (names ++ [n0]) ({[ n0 ]} ∪ X)) as (new & Hrun & Hlen & Hcols).
    { subst X. apply set_eq. intros x.
      rewrite elem_of_union, elem_of_singleton, !elem_of_list_to_set.
      rewrite elem_of_app, list_elem_of_singleton. tauto. }
    exists (n0 :: new). split; [|split].
    + rewrite Hrun. now rewrite <- app_assoc.
    + cbn. now rewrite Hlen.
    + intros [|i] raw name Hraw Hname; cbn in Hraw, Hname.
      * injection Hraw as <-. injection Hname as <-.
        cbn [take]. rewrite app_nil_r.
        assert (Hmem : forall x, x ∈ names <-> x ∈ X).
        { intros x. subst X. symmetry. apply elem_of_list_to_set. }
        unfold names_column. rewrite !Hmem.
        split; [exact Hfree|]. split; [exact Hsame|].
        intros Hin. destruct (Hsuf Hin) as (j & Hj & Hn & Hbelow).
        exists j. split; [exact Hj|]. split; [exact Hn|].
        intros k Hk. apply Hmem, Hbelow, Hk.
      * cbn [take]. specialize (Hcols i raw name Hraw Hname).
        now rewrite <- app_assoc in Hcols.
Qed.

Lemma NoDup_fresh_each (l : list str) :
  (forall i x, l !! i = Some x -> x ∉ take i l) -> NoDup l.
Proof.
  intros H. apply NoDup_alt. intros i j x Hi Hj.
  destruct (Nat.lt_trichotomy i j) as [Hlt|[Heq|Hgt]]; [|exact Heq|].
  - exfalso. apply (H j x Hj). apply elem_of_take. eauto.
  - exfalso. apply (H i x Hi). apply elem_of_take. eauto.
Qed.

(** C4.  For a header row without empty entries [to_column_names] returns
    (the search for a suffix always ends), and the names it returns are as
    many as the headers, pairwise distinct and none empty; the name at
    position [i] comes from the header at position [i]: it is the
    normalized header when no earlier column has that name, and else the
    normalized header followed by the least number from 2 on that makes it
    new.  In particular a header whose normalized form repeats that of an
    earlier header gets a suffix of at least 2, and [Total], [total] give
    [total], [total2]. *)
Theorem to_column_names_unique (row : list str) :
  Forall (fun s => s <> []) row ->
  exists names,
    to_column_names row = Some names
    /\ length names = length row
    /\ NoDup names
    /\ Forall (fun s => s <> []) names
    /\ (forall i raw name, row !! i = Some raw -> names !! i = Some name ->
          names_column (take i names) raw name)
    /\ (forall i j raw_i raw_j, (j < i)%nat ->
          row !! j = Some raw_j -> row !! i = Some raw_i ->
          normalize raw_j = normalize raw_i ->
          exists suffix : N,
            (2 <= suffix)%N
            /\ names !! i = Some (normalize raw_i ++ Py.format_N suffix))
    /\ to_column_names [lit "Total"; lit "total"]
       = Some [lit "total"; lit "total2"].
Proof.
  intros Hrow.
  destruct (to_column_names_loop_spec row [] ∅ eq_refl) as (names & Hrun & Hlen & Hcols).
  cbn [app] in Hrun, Hcols.
  exists names. split; [exact Hrun|]. split; [exact Hlen|].
  assert (Hbase : forall j raw, row !! j = Some raw ->
            normalize raw ∈ take (S j) names).
  { intros j raw Hraw.
    destruct (lookup_lt_is_Some_2 names j) as [name Hname].
    { rewrite Hlen. eapply lookup_lt_Some, Hraw. }
    destruct (Hcols j raw name Hraw Hname) as (_ & Hsame & _).
    destruct (decide (normalize raw ∈ take j names)) as [Hin|Hout].
    - apply elem_of_take in Hin as (k & Hk & Hlt).
      apply elem_of_take. exists k. split; [exact Hk | lia].
    - rewrite <- (Hsame Hout). apply elem_of_take. exists j. split; [exact Hname | lia]. }
  split; [|split; [|split; [exact Hcols|split]]].
  - apply NoDup_fresh_each. intros i x Hx.
    destruct (lookup_lt_is_Some_2 row i) as [raw Hraw].
    { rewrite <- Hlen. eapply lookup_lt_Some, Hx. }
    apply (Hcols i raw x Hraw Hx).
  - apply Forall_lookup. intros i name Hname.
    destruct (lookup_lt_is_Some_2 row i) as [raw Hraw].
    { rewrite <- Hlen. eapply lookup_lt_Some, Hname. }
    assert (Hne : normalize raw <> []).
    { apply normalize_nonempty. eapply Forall_lookup_1 in Hrow; [exact Hrow|exact Hraw]. }
    destruct (Hcols i raw name Hraw Hname) as (_ & Hsame & Hsuf).
    destruct (decide (normalize raw ∈ take i names)) as [Hin|Hout].
    + destruct (Hsuf Hin) as (k & _ & -> & _).
      destruct (normalize raw); [congruence | discriminate].
    + now rewrite (Hsame Hout).
  - intros i j raw_i raw_j Hji Hj Hi Heq.
    destruct (lookup_lt_is_Some_2 names i) as [name Hname].
    { rewrite Hlen. eapply lookup_lt_Some, Hi. }
    destruct (Hcols i raw_i name Hi Hname) as (_ & _ & Hsuf).
    destruct Hsuf as (k & Hk & -> & _).
    { rewrite <- Heq. pose proof (Hbase j raw_j Hj) as Hin.
      apply elem_of_take in Hin as (m & Hm & Hlt).
      apply elem_of_take. exists m. split; [exact Hm | lia]. }
    exists k. split; [exact Hk | exact Hname].
  - vm_compute. reflexivity.
Qed.

Lemma to_column_names_unique_witness :
  exists names,
    to_column_names [lit "Total"; lit "Unit Price"; lit "total"; lit "TOTAL"]
    = Some names
    /\ NoDup names.
Proof.
  destruct (to_column_names_unique
              [lit "Total"; lit "Unit Price"; lit "total"; lit "TOTAL"])
    as (names & Hrun & _ & Hnd & _).
  - repeat constructor; vm_compute; intros H; discriminate H.
  - exists names. split; [exact Hrun | exact Hnd].
Defined.

Example to_column_names_suffix_taken :
  to_column_names [lit "a"; lit "A"; lit "a2"; lit "a"]
  = Some [lit "a"; lit "a2"; lit "a22"; lit "a3"].
Proof. vm_compute. reflexivity. Qed.

(** ** [to_db_value] *)


(** C1 fails on the code.  The cell made of a one and 309 zeros reads as
    the integer [10^309], whatever the limit on digits; that is outside
    the signed 64-bit range, [float] of it overflows, and [to_db_value]
    raises [OverflowError] instead of returning a value. *)
Theorem to_db_value_raises_overflow (max_str_digits : N) :
  Py.int max_str_digits huge_integer_cell = Some (10 ^ 309)%Z
  /\ ((- 2 ^ 63 <=? 10 ^ 309)%Z && (10 ^ 309 <? 2 ^ 63)%Z = false)
  /\ Py.float_of_int (10 ^ 309) = None
  /\ to_db_value max_str_digits huge_integer_cell = Raises OverflowError.
Proof. repeat split; vm_compute; reflexivity. Qed.

(** The same digits with a point are a float: the other path gives
    infinity where this one raises. *)
Example to_db_value_huge_with_point (max_str_digits : N) :
  to_db_value max_str_digits (huge_integer_cell ++ lit ".0")
  = Returns (Float (S754_infinity false)).
Proof. vm_compute. reflexivity. Qed.

(** C2.  The listed cells: the empty cell is [Null], [$100] is the integer
    100, [9223372036854775808] is the float [2^63], [3.14] is the float
    nearest to 3.14 (it is [7070651414971679 / 2^51], within half a unit
    in the last place of 314/100), [abc] is text; and whenever both
    parses of the cell without its currency symbol fail the result is the
    text of the whole cell, symbol included, as for [$abc]. *)
Theorem to_db_value_examples (max_str_digits : N) :
  to_db_value max_str_digits [] = Returns Null
  /\ to_db_value max_str_digits (lit "$100") = Returns (Integer 100)
  /\ to_db_value max_str_digits (lit "9223372036854775808")
     = Returns (Float (S754_finite false 4503599627370496 11))
  /\ (4503599627370496 * 2 ^ 11 = 2 ^ 63)%Z
  /\ to_db_value max_str_digits (lit "3.14")
     = Returns (Float (S754_finite false 7070651414971679 (-51)))
  /\ (2 * Z.abs (7070651414971679 * 100 - 314 * 2 ^ 51) <= 100)%Z
  /\ to_db_value max_str_digits (lit "abc") = Returns (Text (lit "abc"))
  /\ to_db_value max_str_digits (lit "$abc") = Returns (Text (lit "$abc"))
  /\ (forall first tail,
        Py.int max_str_digits
          (if bool_decide (first ∈ currency_symbols) then tail else first :: tail)
        = None ->
        Py.float
          (if bool_decide (first ∈ currency_symbols) then tail else first :: tail)
        = None ->
        to_db_value max_str_digits (first :: tail) = Returns (Text (first :: tail))).
Proof.
  split; [reflexivity|].
  split; [vm_compute; reflexivity|].
  split; [vm_compute; reflexivity|].
  split; [vm_compute; reflexivity|].
  split; [vm_compute; reflexivity|].
  split; [vm_compute; intros H; discriminate H|].
  split; [vm_compute; reflexivity|].
  split; [vm_compute; reflexivity|].
  intros first tail Hint Hfloat. unfold to_db_value. cbv zeta.
  match goal with
  | |- context [Py.int ?a ?b] =>
      replace (Py.int a b) with (@None Z) by (symmetry; exact Hint)
  end.
  match goal with
  | |- context [Py.float ?b] =>
      replace (Py.float b) with (@None spec_float) by (symmetry; exact Hfloat)
  end.
  reflexivity.
Qed.

Lemma to_db_value_examples_witness :
  to_db_value 4300 (lit "$12 apples") = Returns (Text (lit "$12 apples")).
Proof.
  destruct (to_db_value_examples 4300) as (_ & _ & _ & _ & _ & _ & _ & _ & H).
  apply (H 36%N (lit "12 apples")); vm_compute; reflexivity.
Defined.

(** C10.  A cell that is one currency symbol and nothing else is the text
    of that symbol, not [Null]: what is left after the symbol is the empty
    string, which is neither an integer nor a float. *)
Theorem to_db_value_lone_currency_symbol (max_str_digits : N) (symbol : char) :
  symbol ∈ currency_symbols ->
  Py.int max_str_digits [] = None
  /\ Py.float [] = None
  /\ to_db_value max_str_digits [symbol] = Returns (Text [symbol])
  /\ to_db_value max_str_digits [symbol] <> Returns Null.
Proof.
  intros H. split; [reflexivity|]. split; [reflexivity|].
  assert (E : to_db_value max_str_digits [symbol] = Returns (Text [symbol])).
  { unfold currency_symbols in H.
    repeat (apply elem_of_cons in H as [->|H]);
      [vm_compute; reflexivity..|].
    now apply not_elem_of_nil in H. }
  split; [exact E|]. rewrite E. discriminate.
Qed.

Lemma to_db_value_lone_currency_symbol_witness :
  to_db_value 4300 (lit "$") = Returns (Text (lit "$"))
  /\ to_db_value 4300 [8364%N] = Returns (Text [8364%N])
  /\ to_db_value 4300 [165%N] = Returns (Text [165%N])
  /\ to_db_value 4300 [163%N] = Returns (Text [163%N]).
Proof.
  split; [|split; [|split]].
  - apply (to_db_value_lone_currency_symbol 4300 36%N).
    unfold currency_symbols. left.
  - apply (to_db_value_lone_currency_symbol 4300 8364%N).
    unfold currency_symbols. right. left.
  - apply (to_db_value_lone_currency_symbol 4300 165%N).
    unfold currency_symbols. right. right. left.
  - apply (to_db_value_lone_currency_symbol 4300 163%N).
    unfold currency_symbols. right. right. right. left.
Defined.

(** * Further properties *)

(** ** Headers already in normal form *)

Lemma lower_identifier (s : str) :
  Forall (fun c => Py.is_identifier_char c = true) s -> Py.lower s = s.
Proof.
  induction 1 as [|c s Hc Hs IH]; [reflexivity|].
  unfold Py.lower in *. cbn [flat_map]. rewrite IH.
  unfold Py.lower_char, Py.is_identifier_char, Py.underscore in *.
  rewrite !orb_true_iff, !andb_true_iff, !N.leb_le, N.eqb_eq in Hc.
  destruct ((65 <=? c)%N && (c <=? 90)%N) eqn:E1.
  { apply andb_true_iff in E1 as [E1 E1']. apply N.leb_le in E1, E1'. lia. }
  destruct (c =? 304)%N eqn:E2; [apply N.eqb_eq in E2; lia|].
  destruct (c =? 8490)%N eqn:E3; [apply N.eqb_eq in E3; lia|].
  reflexivity.
Qed.

Lemma sub_non_identifier_fixed (s : str) :
  Forall (fun c => Py.is_identifier_char c = true) s ->
  Py.sub_non_identifier s = s.
Proof.
  induction 1 as [|c s Hc Hs IH]; [reflexivity|].
  unfold Py.sub_non_identifier in *. cbn [map]. now rewrite Hc, IH.
Qed.

Lemma normalize_normal_form (s : str) : normal_form (normalize s).
Proof.
  unfold normal_form, normalize. rewrite sub_underscore_run_squeeze. split.
  - apply squeeze_sublist, sub_non_identifier_chars.
  - destruct (squeeze_scan (Py.sub_non_identifier (Py.lower s))) as [_ ->].
    apply scan_flag_no_double.
Qed.

Lemma normalize_fixed (s : str) : normal_form s -> normalize s = s.
Proof.
  intros [Hchars Hdouble]. unfold normalize.
  rewrite lower_identifier, sub_non_identifier_fixed by exact Hchars.
  rewrite sub_underscore_run_squeeze. now apply squeeze_fixpoint.
Qed.

(** [normalize] is idempotent, and the strings it leaves unchanged are
    exactly those made of characters of [a-z0-9_] without two underscores
    in a row: a header that is already a clean identifier keeps its name. *)
Theorem normalize_idempotent (s : str) :
  normalize (normalize s) = normalize s
  /\ (normalize s = s <-> normal_form s).
Proof.
  split.
  - apply normalize_fixed, normalize_normal_form.
  - split.
    + intros <-. apply normalize_normal_form.
    + apply normalize_fixed.
Qed.

Lemma to_column_names_loop_clean (row : list str) :
  forall (names : list str) (X : gset str),
    X = list_to_set names ->
    Forall normal_form row ->
    NoDup (names ++ row) ->
    to_column_names_loop row names X = Some (names ++ row).
Proof.
  induction row as [|raw row IH]; intros names X HX Hclean Hnd.
  - cbn. now rewrite app_nil_r.
  - apply Forall_cons in Hclean as [Hraw Hclean].
    cbn [to_column_names_loop]. rewrite (normalize_fixed raw Hraw).
    assert (Hfree : raw ∉ X).
    { subst X. rewrite elem_of_list_to_set. intros Hin.
      apply NoDup_app in Hnd as (_ & Hdisj & _).
      apply (Hdisj raw Hin). left. }
    unfold unique_name. destruct (decide (raw ∈ X)) as [|_]; [contradiction|].
    rewrite (IH (names ++ [raw]) ({[ raw ]} ∪ X)).
    + now rewrite <- app_assoc.
    + subst X. apply set_eq. intros x.
      rewrite elem_of_union, elem_of_singleton, !elem_of_list_to_set.
      rewrite elem_of_app, list_elem_of_singleton. tauto.
    + exact Hclean.
    + now rewrite <- app_assoc.
Qed.

(** A header row of pairwise distinct names that are already in normal
    form is returned as it is: no name is rewritten and no suffix is
    added. *)
Theorem to_column_names_clean_row (row : list str) :
  Forall normal_form row ->
  NoDup row ->
  to_column_names row = Some row.
Proof.
  intros Hclean Hnd.
  apply (to_column_names_loop_clean row [] ∅ eq_refl Hclean Hnd).
Qed.

Lemma to_column_names_clean_row_witness :
  to_column_names [lit "name"; lit "unit_price"; lit "qty2"]
  = Some [lit "name"; lit "unit_price"; lit "qty2"].
Proof.
  apply to_column_names_clean_row.
  - repeat constructor.
  - repeat (constructor; [vm_compute; intros H; inversion H; subst;
                          repeat match goal with
                                 | H' : _ ∈ _ |- _ => inversion H'; clear H'; subst
                                 end|]).
    constructor.
Defined.

(** ** What [to_db_value] returns *)

(** The kind of the value tells about the cell: [Null] only for the empty
    cell, an integer always within the signed 64-bit range, a text always
    the whole cell, unchanged, and never a blob. *)
Theorem to_db_value_result (max_str_digits : N) (str_ : str) (v : db_value) :
  to_db_value max_str_digits str_ = Returns v ->
  match v with
  | Null => str_ = []
  | Integer n => (- 2 ^ 63 <= n < 2 ^ 63)%Z /\ str_ <> []
  | Float _ => str_ <> []
  | Text s => s = str_ /\ str_ <> []
  | Blob _ => False
  end.
Proof.
  destruct str_ as [|first tail]; cbn [to_db_value].
  - intros [= <-]. reflexivity.
  - destruct (Py.int _ _) as [value|].
    + destruct ((- 2 ^ 63 <=? value)%Z && (value <? 2 ^ 63)%Z) eqn:E.
      * intros [= <-]. split; [lia | discriminate].
      * destruct (Py.float_of_int value); [|discriminate].
        intros [= <-]. discriminate.
    + destruct (Py.float _); intros [= <-]; [discriminate|].
      split; [reflexivity | discriminate].
Qed.

Lemma to_db_value_result_witness :
  (- 2 ^ 63 <= -42 < 2 ^ 63)%Z /\ lit "-42" <> [].
Proof.
  apply (to_db_value_result 4300 (lit "-42") (Integer (-42))).
  vm_compute. reflexivity.
Defined.

(** ** Integers written in decimal are read back *)

Lemma digits_value_snoc (ds : list N) (d : N) :
  Py.digits_value (ds ++ [d]) = (10 * Py.digits_value ds + d)%N.
Proof. unfold Py.digits_value. now rewrite fold_left_app. Qed.

Lemma pretty_N_char_code (d : N) :
  (d < 10)%N -> N_of_ascii (pretty_N_char d) = (48 + d)%N.
Proof.
  intros Hd.
  assert (d = 0 \/ d = 1 \/ d = 2 \/ d = 3 \/ d = 4 \/ d = 5 \/ d = 6
          \/ d = 7 \/ d = 8 \/ d = 9)%N as H by lia.
  repeat (destruct H as [->|H]; [reflexivity|]). now subst.
Qed.

(** The digits [pretty] writes for [x], in front of what is there. *)
Lemma pretty_N_go_digits (x : N) :
  forall (s : string) (k : nat),
    (x < 10 ^ N.of_nat k)%N ->
    exists ds,
      lit (pretty_N_go x s) = digit_chars ds ++ lit s
      /\ Forall (fun d => (d < 10)%N) ds
      /\ Py.digits_value ds = x
      /\ (length ds <= k)%nat
      /\ ((0 < x)%N -> ds <> []).
Proof.
  induction (N.lt_wf_0 x) as [x _ IH]. intros s k Hk.
  destruct (N.eq_dec x 0%N) as [->|Hpos].
  - exists []. rewrite pretty_N_go_0.
    repeat split; try constructor; try lia. cbn [length]. lia.
  - rewrite pretty_N_go_step by lia.
    destruct k as [|k].
    { cbn in Hk. lia. }
    destruct (IH (x / 10)%N) with
      (s := String (pretty_N_char (x mod 10)) s) (k := k)
      as (ds & Hlit & Hall & Hval & Hlen & _).
    { apply N.div_lt; lia. }
    { apply N.Div0.div_lt_upper_bound.
      replace (10 * 10 ^ N.of_nat k)%N with (10 ^ N.of_nat (S k))%N; [exact Hk|].
      rewrite Nat2N.inj_succ, N.pow_succ_r'. reflexivity. }
    exists (ds ++ [x mod 10])%N. split; [|split; [|split; [|split]]].
    + rewrite Hlit. unfold digit_chars, lit. cbn [list_ascii_of_string map].
      rewrite map_app, <- app_assoc. cbn [map app].
      rewrite pretty_N_char_code by (apply N.mod_lt; lia). reflexivity.
    + apply Forall_app. split; [exact Hall|].
      constructor; [apply N.mod_lt; lia | constructor].
    + rewrite digits_value_snoc, Hval. symmetry. apply N.div_mod. lia.
    + rewrite length_app. cbn [length]. lia.
    + intros _. destruct ds; discriminate.
Qed.

Lemma format_N_digits (x : N) (k : nat) :
  (x < 10 ^ N.of_nat k)%N ->
  exists ds,
    Py.format_N x = digit_chars ds
    /\ Forall (fun d => (d < 10)%N) ds
    /\ Py.digits_value ds = x
    /\ (length ds <= Nat.max 1 k)%nat
    /\ ds <> [].
Proof.
  intros Hk. unfold Py.format_N, pretty, pretty_N.
  destruct (decide (x = 0%N)) as [->|Hpos].
  - exists [0%N]. repeat split; try reflexivity; try lia.
    + repeat constructor.
    + cbn. lia.
    + discriminate.
  - destruct (pretty_N_go_digits x EmptyString k Hk)
      as (ds & Hlit & Hall & Hval & Hlen & Hne).
    exists ds. change (lit EmptyString) with (@nil char) in Hlit.
    rewrite app_nil_r in Hlit.
    repeat split; try assumption; [lia | apply Hne; lia].
Qed.

Lemma digit_char_facts (d : N) :
  (d < 10)%N ->
  Py.is_digit (48 + d)%N = true /\ Py.is_space (48 + d)%N = false
  /\ (48 + d - 48 = d)%N /\ (48 + d <? 128)%N = true
  /\ Py.is_underscore (48 + d)%N = false.
Proof.
  intros Hd.
  assert (d = 0 \/ d = 1 \/ d = 2 \/ d = 3 \/ d = 4 \/ d = 5 \/ d = 6
          \/ d = 7 \/ d = 8 \/ d = 9)%N as H by lia.
  repeat (destruct H as [->|H]; [repeat split; reflexivity|]).
  subst. repeat split; reflexivity.
Qed.

Lemma digit_run_digits (ds : list N) :
  Forall (fun d => (d < 10)%N) ds ->
  forall (prev : option char) (acc : list N),
    match prev with Some p => Py.is_underscore p = false | None => True end ->
    Py.digit_run prev (digit_chars ds) acc = Some (acc ++ ds, []).
Proof.
  induction 1 as [|d ds Hd Hds IH]; intros prev acc Hprev.
  - cbn. rewrite app_nil_r. destruct prev as [p|]; [now rewrite Hprev | reflexivity].
  - destruct (digit_char_facts d Hd) as (Hdig & _ & Hsub & _ & Hus).
    cbn [digit_chars map Py.digit_run]. rewrite Hdig, Hsub.
    fold (digit_chars ds). rewrite IH by exact Hus.
    now rewrite <- app_assoc.
Qed.

Lemma digit_chars_ascii (ds : list N) :
  Forall (fun d => (d < 10)%N) ds ->
  forallb (fun c => (c <? 128)%N) (digit_chars ds) = true.
Proof.
  induction 1 as [|d ds Hd Hds IH]; [reflexivity|].
  cbn [digit_chars map forallb]. fold (digit_chars ds).
  destruct (digit_char_facts d Hd) as (_ & _ & _ & -> & _). exact IH.
Qed.

(** [int] reads a string of at most 640 ASCII digits, with or without a
    minus sign in front, as the number it writes. *)
Lemma int_digit_chars (max_str_digits : N) (ds : list N) (negative : bool) :
  Forall (fun d => (d < 10)%N) ds -> ds <> [] -> (length ds <= 640)%nat ->
  Py.int max_str_digits ((if negative then [45%N] else []) ++ digit_chars ds)
  = Some (if negative then - Z.of_N (Py.digits_value ds)
          else Z.of_N (Py.digits_value ds))%Z.
Proof.
  intros Hall Hne Hlen.
  destruct ds as [|d ds]; [congruence|].
  pose proof (Forall_inv Hall) as Hd. cbn beta in Hd.
  destruct (digit_char_facts d Hd) as (Hdig & Hsp & Hsub & Hasc & Hus).
  assert (Hrun : Py.digit_run None (digit_chars (d :: ds)) [] = Some (d :: ds, []))
    by (apply (digit_run_digits (d :: ds) Hall None []); exact I).
  assert (Hlimit : (Py.max_str_digits_threshold <? N.of_nat (length (d :: ds)))%N
                   = false).
  { apply N.ltb_ge. unfold Py.max_str_digits_threshold. lia. }
  assert (Hd43 : (48 + d)%N <> 43%N) by lia.
  assert (Hd45 : (48 + d)%N <> 45%N) by lia.
  pose proof (digit_chars_ascii (d :: ds) Hall) as Hascii.
  assert (Hskip : Py.skip_spaces (digit_chars (d :: ds)) = digit_chars (d :: ds)).
  { cbn [digit_chars map Py.skip_spaces]. now rewrite Hsp. }
  assert (Hsign :
    match digit_chars (d :: ds) with
    | 43%N :: rest => (false, rest)
    | 45%N :: rest => (true, rest)
    | _ => (false, digit_chars (d :: ds))
    end = (false, digit_chars (d :: ds))).
  { cbn [digit_chars map].
    assert (d = 0 \/ d = 1 \/ d = 2 \/ d = 3 \/ d = 4 \/ d = 5 \/ d = 6
            \/ d = 7 \/ d = 8 \/ d = 9)%N as H by lia.
    repeat (destruct H as [->|H]; [reflexivity|]). now subst. }
  unfold Py.int, Py.transform_decimal_and_space_to_ascii.
  remember (digit_chars (d :: ds)) as body eqn:Hbody.
  destruct negative; cbn [app].
  - cbn [forallb]. rewrite Hascii.
    change ((45 <? 128)%N && true) with true. cbv iota.
    change (Py.skip_spaces (45%N :: body)) with (45%N :: body). cbv iota beta.
    rewrite Hrun. cbn [Py.skip_spaces]. rewrite Hlimit. reflexivity.
  - rewrite Hascii, Hskip, Hsign, Hrun.
    cbn [Py.skip_spaces]. rewrite Hlimit. reflexivity.
Qed.

Lemma format_Z_shape (z : Z) (k : nat) :
  (Z.abs z < 10 ^ Z.of_nat k)%Z ->
  exists (negative : bool) (ds : list N),
    Py.format_Z z = (if negative then [45%N] else []) ++ digit_chars ds
    /\ Forall (fun d => (d < 10)%N) ds
    /\ ds <> []
    /\ (length ds <= Nat.max 1 k)%nat
    /\ z = (if negative then - Z.of_N (Py.digits_value ds)
            else Z.of_N (Py.digits_value ds))%Z.
Proof.
  intros Hk.
  assert (Hn : forall p, (Z.pos p < 10 ^ Z.of_nat k)%Z ->
                         (N.pos p < 10 ^ N.of_nat k)%N).
  { intros p Hp. apply N2Z.inj_lt. rewrite N2Z.inj_pow, nat_N_Z. exact Hp. }
  destruct z as [|p|p].
  - exists false, [0%N]. repeat split; try reflexivity.
    + repeat constructor.
    + discriminate.
    + cbn [length]. lia.
  - destruct (format_N_digits (N.pos p) k (Hn p Hk))
      as (ds & Hfmt & Hall & Hval & Hlen & Hne).
    exists false, ds. repeat split; try assumption.
    now rewrite Hval.
  - destruct (format_N_digits (N.pos p) k (Hn p Hk))
      as (ds & Hfmt & Hall & Hval & Hlen & Hne).
    exists true, ds. repeat split; try assumption.
    + change (Py.format_Z (Z.neg p)) with (45%N :: Py.format_N (N.pos p)).
      now rewrite Hfmt.
    + now rewrite Hval.
Qed.

Lemma int_format_Z (max_str_digits : N) (z : Z) :
  (Z.abs z < 10 ^ 640)%Z -> Py.int max_str_digits (Py.format_Z z) = Some z.
Proof.
  intros Hz.
  destruct (format_Z_shape z 640 Hz) as (negative & ds & -> & Hall & Hne & Hlen & Hval).
  rewrite int_digit_chars; [now rewrite <- Hval | exact Hall | exact Hne | lia].
Qed.

Lemma format_Z_not_currency (z : Z) :
  exists first tail,
    Py.format_Z z = first :: tail /\ first ∉ currency_symbols.
Proof.
  assert (Hk : exists k, (Z.abs z < 10 ^ Z.of_nat k)%Z).
  { exists (Z.to_nat (Z.abs z)). rewrite Z2Nat.id by lia.
    apply Z.pow_gt_lin_r; lia. }
  destruct Hk as [k Hk].
  destruct (format_Z_shape z k Hk) as (negative & ds & -> & Hall & Hne & _ & _).
  destruct ds as [|d ds]; [congruence|].
  pose proof (Forall_inv Hall) as Hd. cbn beta in Hd.
  destruct negative; cbn [app digit_chars map]; eexists _, _;
    (split; [reflexivity|]); unfold currency_symbols; intros Hin;
    repeat (apply elem_of_cons in Hin as [Hin|Hin]; [lia|]);
    now apply not_elem_of_nil in Hin.
Qed.

(** A cell that is a number of the signed 64-bit range written in
    decimal, as [str] writes it and as [export] puts it into a file, is
    read back as that integer; and so it is with one currency symbol in
    front. *)
Theorem to_db_value_reads_integers (max_str_digits : N) (z : Z) :
  (- 2 ^ 63 <= z < 2 ^ 63)%Z ->
  to_db_value max_str_digits (Py.format_Z z) = Returns (Integer z)
  /\ forall symbol, symbol ∈ currency_symbols ->
       to_db_value max_str_digits (symbol :: Py.format_Z z) = Returns (Integer z).
Proof.
  intros Hz.
  assert (Hint : Py.int max_str_digits (Py.format_Z z) = Some z).
  { apply int_format_Z.
    assert (2 ^ 63 < 10 ^ 640)%Z by (vm_compute; reflexivity). lia. }
  assert (Hrange : ((- 2 ^ 63 <=? z)%Z && (z <? 2 ^ 63)%Z) = true).
  { apply andb_true_iff. split; [apply Z.leb_le | apply Z.ltb_lt]; lia. }
  split.
  - destruct (format_Z_not_currency z) as (first & tail & Hshape & Hfree).
    rewrite Hshape in *. cbn [to_db_value].
    rewrite bool_decide_eq_false_2 by exact Hfree.
    now rewrite Hint, Hrange.
  - intros symbol Hsymbol. cbn [to_db_value].
    rewrite bool_decide_eq_true_2 by exact Hsymbol.
    now rewrite Hint, Hrange.
Qed.

Lemma to_db_value_reads_integers_witness :
  to_db_value 4300 (Py.format_Z (-9223372036854775808))
  = Returns (Integer (-9223372036854775808)).
Proof.
  destruct (to_db_value_reads_integers 4300 (-9223372036854775808)) as [H _].
  - split; [apply Z.leb_le | apply Z.ltb_lt]; reflexivity.
  - exact H.
Defined.

(** ** The column names are identifiers *)

Lemma format_N_identifier (n : N) :
  Forall (fun c => Py.is_identifier_char c = true) (Py.format_N n).
Proof.
  destruct (format_N_digits n (N.to_nat n)) as (ds & -> & Hall & _).
  { rewrite N2Nat.id. apply N.pow_gt_lin_r. lia. }
  unfold digit_chars. apply Forall_fmap.
  eapply Forall_impl; [exact Hall|]. intros d Hd. cbn beta in *.
  assert (d = 0 \/ d = 1 \/ d = 2 \/ d = 3 \/ d = 4 \/ d = 5 \/ d = 6
          \/ d = 7 \/ d = 8 \/ d = 9)%N as H by lia.
  repeat (destruct H as [->|H]; [reflexivity|]). now subst.
Qed.

(** Whatever the headers are, every name [to_column_names] returns is
    made of the characters [a-z0-9_] only; in particular no name holds a
    quotation mark, so that the names can be put between quotation marks
    in the statements [import_] builds. *)
Theorem to_column_names_identifiers (row : list str) :
  exists names,
    to_column_names row = Some names
    /\ Forall (fun name => Forall (fun c => Py.is_identifier_char c = true) name
                           /\ quote ∉ name) names.
Proof.
  destruct (to_column_names_loop_spec row [] ∅ eq_refl)
    as (names & Hrun & Hlen & Hcols).
  cbn [app] in Hrun, Hcols.
  exists names. split; [exact Hrun|].
  assert (Hquote : forall name,
            Forall (fun c => Py.is_identifier_char c = true) name ->
            quote ∉ name).
  { intros name Hname Hin. rewrite Forall_forall in Hname.
    specialize (Hname quote Hin). discriminate Hname. }
  assert (Hnorm : forall raw,
            Forall (fun c => Py.is_identifier_char c = true) (normalize raw)).
  { intros raw. unfold normalize. rewrite sub_underscore_run_squeeze.
    apply squeeze_sublist, sub_non_identifier_chars. }
  apply Forall_lookup. intros i name Hname.
  destruct (lookup_lt_is_Some_2 row i) as [raw Hraw].
  { rewrite <- Hlen. eapply lookup_lt_Some, Hname. }
  destruct (Hcols i raw name Hraw Hname) as (_ & Hsame & Hsuf).
  assert (Hchars : Forall (fun c => Py.is_identifier_char c = true) name).
  { destruct (decide (normalize raw ∈ take i names)) as [Hin|Hout].
    - destruct (Hsuf Hin) as (k & _ & -> & _).
      apply Forall_app. split; [apply Hnorm | apply format_N_identifier].
    - rewrite (Hsame Hout). apply Hnorm. }
  split; [exact Hchars | now apply Hquote].
Qed.


(** * The program and its surroundings *)

(** ** Running the monad *)

(** Puts a log built by appending into the form [l ++ e1 :: e2 :: ...]. *)
Ltac log_norm := repeat rewrite <- app_assoc; cbn [app].

Lemma bind_run {A B} (m : M A) (f : A -> M B) (w : world) :
  (m ≫= f) w
  = match m w with
    | (Returns a, w') => f a w'
    | (Raises e, w') => (Raises e, w')
    | (OutOfFuel, w') => (OutOfFuel, w')
    end.
Proof. reflexivity. Qed.

Lemma ret_run {A} (a : A) (w : world) : (mret a : M A) w = (Returns a, w).
Proof. reflexivity. Qed.

Lemma emit_run (ev : event) (w : world) : emit ev w = (Returns tt, after w [ev]).
Proof. reflexivity. Qed.

Lemma print_run (text : str) (w : world) :
  print text w = (Returns tt, after w [Print text]).
Proof. reflexivity. Qed.

Lemma get_log_run (w : world) : get_log w = (Returns (log w), w).
Proof. reflexivity. Qed.

Lemma after_after (w : world) (a b : list event) :
  after (after w a) b = after w (a ++ b).
Proof. unfold after. cbn. now rewrite app_assoc. Qed.

Lemma after_nil (w : world) : after w [] = w.
Proof. destruct w. unfold after. cbn. now rewrite app_nil_r. Qed.

Lemma input_run (prompt : str) (w : world) :
  input prompt w
  = match stdin w with
    | Line line :: _ => (Returns line, after_input w prompt)
    | Interrupt :: _ => (Raises KeyboardInterrupt, after_input w prompt)
    | [] => (Raises EOFError, after w [Input prompt])
    end.
Proof.
  unfold input, after, after_input.
  destruct (stdin w) as [|[line|] rest] eqn:E; cbn [stdin log tail];
    rewrite ?E; reflexivity.
Qed.

Lemma after_input_after (w : world) (prompt : str) (evs : list event) :
  after (after_input w prompt) evs
  = {| stdin := tail (stdin w); log := log w ++ Input prompt :: evs |}.
Proof. unfold after, after_input. cbn. now rewrite <- app_assoc. Qed.

Lemma execute_run (rt : runtime) (sql : str) (w : world) :
  execute rt sql w
  = match sqlite_execute rt (log w) sql with
    | inl e => (Raises e, after w [Execute sql])
    | inr c => (Returns c, after w [Execute sql])
    end.
Proof.
  unfold execute. rewrite bind_run, get_log_run, bind_run, emit_run.
  destruct (sqlite_execute rt (log w) sql); reflexivity.
Qed.

Lemma executemany_run (rt : runtime) (sql : str) (values : list (list db_value))
    (w : world) :
  executemany rt sql values w
  = match sqlite_executemany rt (log w) sql values with
    | Some e => (Raises e, after w [ExecuteMany sql values])
    | None => (Returns tt, after w [ExecuteMany sql values])
    end.
Proof.
  unfold executemany. rewrite bind_run, get_log_run, bind_run, emit_run.
  destruct (sqlite_executemany rt (log w) sql values); reflexivity.
Qed.

Lemma commit_run (rt : runtime) (w : world) :
  commit rt w
  = match sqlite_commit rt (log w) with
    | Some e => (Raises e, after w [Commit])
    | None => (Returns tt, after w [Commit])
    end.
Proof.
  unfold commit. rewrite bind_run, get_log_run, bind_run, emit_run.
  destruct (sqlite_commit rt (log w)); reflexivity.
Qed.

Lemma writerow_run (rt : runtime) (row : list db_value) (w : world) :
  writerow rt row w
  = match file_write rt (log w) row with
    | Some e => (Raises e, after w [WriteRow row])
    | None => (Returns tt, after w [WriteRow row])
    end.
Proof.
  unfold writerow. rewrite bind_run, get_log_run, bind_run, emit_run.
  destruct (file_write rt (log w) row); reflexivity.
Qed.

Lemma finally_run {A} (body : M A) (ev : event) (w : world) :
  finally_ body (emit ev) w
  = match body w with
    | (OutOfFuel, w') => (OutOfFuel, w')
    | (o, w') => (o, after w' [ev])
    end.
Proof.
  unfold finally_. destruct (body w) as [[a|e|] w']; reflexivity.
Qed.

Lemma finally_bind {A B} (m : M A) (f : A -> M B) (cleanup : M unit)
    (w w' : world) (a : A) :
  m w = (Returns a, w') ->
  finally_ (m ≫= f) cleanup w = finally_ (f a) cleanup w'.
Proof. intros H. unfold finally_. now rewrite bind_run, H. Qed.

Lemma try_except_run {A} (body : M A) (handler : exception -> M A) (w : world) :
  try_except body handler w
  = match body w with
    | (Raises e, w') => if is_exception e then handler e w' else (Raises e, w')
    | r => r
    end.
Proof. reflexivity. Qed.

Lemma accepts_app (rt : runtime) (a b : list event) :
  forall history,
    accepts rt history (a ++ b)
    <-> accepts rt history a /\ accepts rt (history ++ a) b.
Proof.
  induction a as [|ev a IH]; intros history; cbn [app accepts].
  - rewrite app_nil_r. tauto.
  - rewrite IH, <- app_assoc. cbn [app]. tauto.
Qed.

Lemma fetchone_run (cur : cursor) (rows : list (list db_value)) (w : world) :
  fetchone cur rows w
  = (match rows with
     | row :: rows' => Returns (Some row, rows')
     | [] =>
         match fetch_error cur with
         | Some e => Raises e
         | None => Returns (None, [])
         end
     end, after w [Fetch]).
Proof.
  unfold fetchone. rewrite bind_run, emit_run.
  destruct rows; [destruct (fetch_error cur)|]; reflexivity.
Qed.

Lemma read_batch_run (reader : csv_reader) (w : world) :
  read_batch reader w
  = (if (batch_size <=? length (csv_rows reader))%nat
     then Returns (take batch_size (csv_rows reader),
                   {| csv_rows := drop batch_size (csv_rows reader);
                      csv_error := csv_error reader |})
     else
       match csv_error reader with
       | Some e => Raises e
       | None =>
           Returns (csv_rows reader, {| csv_rows := []; csv_error := None |})
       end,
     after w [ReadBatch]).
Proof.
  unfold read_batch. rewrite bind_run, emit_run.
  destruct (batch_size <=? length (csv_rows reader))%nat;
    [|destruct (csv_error reader)]; reflexivity.
Qed.

(** ** [import_]: the header check *)

Lemma index_of_spec (x : str) (row : list str) :
  x ∈ row ->
  row !! index_of x row = Some x
  /\ forall j, (j < index_of x row)%nat -> row !! j <> Some x.
Proof.
  induction row as [|y row IH]; intros Hin; [now apply not_elem_of_nil in Hin|].
  cbn [index_of]. destruct (decide (y = x)) as [->|Hne].
  - split; [reflexivity | intros j Hj; lia].
  - apply elem_of_cons in Hin as [->|Hin]; [congruence|].
    destruct (IH Hin) as [Hat Hbefore]. split; [exact Hat|].
    intros [|j] Hj; cbn; [congruence|]. apply Hbefore. lia.
Qed.

(** The first steps of [import_]: the file name is read, the file opened
    and its first row read. *)
Ltac import_open Hin Hread :=
  unfold import_; rewrite bind_run, input_run, Hin;
  rewrite bind_run, get_log_run, bind_run, emit_run;
  unfold after_input at 1; cbn [log]; rewrite Hread;
  rewrite finally_run, bind_run; unfold lift at 1, next_row;
  cbn [csv_rows csv_error].

(** C8.  When the header row has an empty field [import_] raises
    [ValueError]; its message names the column of the first empty field,
    counted from 1; and all that has happened by then is the prompt for
    the file name and the opening and closing of the file: no statement
    was sent to the store, so no table was created. *)
Theorem import_rejects_empty_header (rt : runtime) (w : world)
    (header_row : list str) (reader : list (list str))
    (error : option exception) (filename : str) :
  head (stdin w) = Some (Line filename) ->
  read_csv rt (log w ++ [Input import_prompt]) filename
    = inr {| csv_rows := header_row :: reader; csv_error := error |} ->
  [] ∈ header_row ->
  exists column : nat,
    header_row !! column = Some []
    /\ (forall j, (j < column)%nat -> header_row !! j <> Some [])
    /\ import_ rt w
       = (Raises (ValueError (lit "There is no header in row 1, column "
                                ++ Py.format_N (N.of_nat (column + 1)))),
          {| stdin := tail (stdin w);
             log := log w ++ [Input import_prompt; OpenRead filename;
                              CloseFile filename] |})
    /\ forall sql, Execute sql ∈ log (snd (import_ rt w)) -> Execute sql ∈ log w.
Proof.
  intros Hin Hread Hempty.
  destruct (index_of_spec [] header_row Hempty) as [Hat Hbefore].
  exists (index_of [] header_row). split; [exact Hat|]. split; [exact Hbefore|].
  assert (E : import_ rt w
       = (Raises (ValueError (no_header_message header_row)),
          {| stdin := tail (stdin w);
             log := log w ++ [Input import_prompt; OpenRead filename;
                              CloseFile filename] |})).
  { destruct (stdin w) as [|line rest] eqn:Estdin; [discriminate|].
    injection Hin as ->.
    import_open Estdin Hread.
    rewrite bool_decide_eq_true_2 by exact Hempty.
    unfold raise. rewrite !after_after, after_input_after, Estdin. reflexivity. }
  split; [exact E|].
  rewrite E. cbn [snd log]. intros sql Hsql.
  apply elem_of_app in Hsql as [Hsql|Hsql]; [exact Hsql|].
  repeat (apply elem_of_cons in Hsql as [Hsql|Hsql]; [discriminate Hsql|]).
  now apply not_elem_of_nil in Hsql.
Qed.

Lemma import_rejects_empty_header_witness :
  exists column : nat,
    [lit "name"; []; lit "amount"] !! column = Some []
    /\ import_ (example_runtime [[lit "name"; []; lit "amount"]; [lit "Ann"; lit "x"; lit "$50"]]
                  no_rows_cursor)
         {| stdin := [Line (lit "data.csv"); Line (lit "people")]; log := [] |}
       = (Raises (ValueError (lit "There is no header in row 1, column "
                                ++ Py.format_N (N.of_nat (column + 1)))),
          {| stdin := [Line (lit "people")];
             log := [Input import_prompt; OpenRead (lit "data.csv");
                     CloseFile (lit "data.csv")] |}).
Proof.
  destruct (import_rejects_empty_header
              (example_runtime [[lit "name"; []; lit "amount"]; [lit "Ann"; lit "x"; lit "$50"]]
                 no_rows_cursor)
              {| stdin := [Line (lit "data.csv"); Line (lit "people")]; log := [] |}
              [lit "name"; []; lit "amount"] [[lit "Ann"; lit "x"; lit "$50"]]
              None (lit "data.csv"))
    as (column & Hat & _ & Hrun & _).
  - reflexivity.
  - reflexivity.
  - right. left.
  - exists column. split; [exact Hat | exact Hrun].
Defined.

(** ** [import_]: what can go wrong before the rows *)

Lemma to_column_names_returns (header_row : list str) :
  exists column_names, to_column_names header_row = Some column_names.
Proof.
  destruct (to_column_names_loop_spec header_row [] ∅ eq_refl)
    as (names & Hrun & _).
  exists names. exact Hrun.
Qed.

(** A file that cannot be opened makes [import_] fail with the error of
    [open], and an empty file with [StopIteration], raised by [next] on
    the reader; a file whose first row cannot be read, with the error of
    the reader.  In all cases nothing is asked of the store and the table
    name is not asked for; a file that was opened is closed. *)
Theorem import_without_header (rt : runtime) (w : world) (filename : str) :
  head (stdin w) = Some (Line filename) ->
  (forall e,
     read_csv rt (log w ++ [Input import_prompt]) filename = inl e ->
     import_ rt w
     = (Raises e,
        {| stdin := tail (stdin w);
           log := log w ++ [Input import_prompt; OpenRead filename] |}))
  /\ (read_csv rt (log w ++ [Input import_prompt]) filename
      = inr {| csv_rows := []; csv_error := None |} ->
      import_ rt w
      = (Raises StopIteration,
         {| stdin := tail (stdin w);
            log := log w ++ [Input import_prompt; OpenRead filename;
                             CloseFile filename] |}))
  /\ (forall e,
        read_csv rt (log w ++ [Input import_prompt]) filename
        = inr {| csv_rows := []; csv_error := Some e |} ->
        import_ rt w
        = (Raises e,
           {| stdin := tail (stdin w);
              log := log w ++ [Input import_prompt; OpenRead filename;
                               CloseFile filename] |})).
Proof.
  intros Hin.
  destruct (stdin w) as [|line rest] eqn:Estdin; [discriminate|].
  injection Hin as ->.
  split; [|split].
  - intros e Hread. unfold import_. rewrite bind_run, input_run, Estdin.
    rewrite bind_run, get_log_run, bind_run, emit_run.
    unfold after_input at 1. cbn [log]. rewrite Hread.
    unfold raise. rewrite after_input_after, Estdin. reflexivity.
  - intros Hread. import_open Estdin Hread.
    rewrite !after_after, after_input_after, Estdin. reflexivity.
  - intros e Hread. import_open Estdin Hread.
    rewrite !after_after, after_input_after, Estdin. reflexivity.
Qed.

Lemma import_without_header_witness :
  import_ (example_runtime [] no_rows_cursor)
    {| stdin := [Line (lit "empty.csv")]; log := [] |}
  = (Raises StopIteration,
     {| stdin := [];
        log := [Input import_prompt; OpenRead (lit "empty.csv");
                CloseFile (lit "empty.csv")] |}).
Proof.
  destruct (import_without_header (example_runtime [] no_rows_cursor)
              {| stdin := [Line (lit "empty.csv")]; log := [] |} (lit "empty.csv"))
    as (_ & Hempty & _).
  - reflexivity.
  - apply Hempty. reflexivity.
Defined.

(** The steps of [import_] from the header to the table name: the header
    has no empty field, its column names are computed, and the table name
    is read. *)
Ltac import_table Hin Hheader Hnames :=
  rewrite bool_decide_eq_false_2 by exact Hheader;
  rewrite Hnames, bind_run, input_run;
  unfold after_input at 1, after at 1; rewrite Hin; cbn [stdin tail].

(** A table name with a quotation mark makes [import_] raise [ValueError]
    after the header was read and before any statement is sent to the
    store: no table is created, and the file is closed. *)
Theorem import_rejects_quoted_table_name (rt : runtime) (w : world)
    (filename table_name : str) (rest : list keys)
    (header_row : list str) (reader : list (list str))
    (error : option exception) :
  stdin w = Line filename :: Line table_name :: rest ->
  read_csv rt (log w ++ [Input import_prompt]) filename
    = inr {| csv_rows := header_row :: reader; csv_error := error |} ->
  [] ∉ header_row ->
  quote ∈ table_name ->
  import_ rt w
  = (Raises (ValueError (lit "The table name may not contain a quotation mark. Your entry will automatically be enclosed in quotation marks, so it should be an ordinary string rather than a quoted identifier.")),
     {| stdin := rest;
        log := log w ++ [Input import_prompt; OpenRead filename;
                         Input table_prompt; CloseFile filename] |}).
Proof.
  intros Hin Hread Hheader Hquote.
  destruct (to_column_names_returns header_row) as [column_names Hnames].
  import_open Hin Hread. import_table Hin Hheader Hnames.
  rewrite bool_decide_eq_true_2 by exact Hquote.
  unfold raise, after_input, after, quotation_mark_message.
  cbn [stdin log tail]. rewrite Hin.
  cbn [tail]. log_norm. reflexivity.
Qed.

Lemma import_rejects_quoted_table_name_witness :
  import_ (example_runtime [[lit "a"]; [lit "1"]] no_rows_cursor)
    {| stdin := [Line (lit "data.csv"); Line [34%N; 116%N; 34%N]]; log := [] |}
  = (Raises (ValueError quotation_mark_message),
     {| stdin := [];
        log := [] ++ [Input import_prompt; OpenRead (lit "data.csv");
                      Input table_prompt; CloseFile (lit "data.csv")] |}).
Proof.
  apply (import_rejects_quoted_table_name
           (example_runtime [[lit "a"]; [lit "1"]] no_rows_cursor)
           {| stdin := [Line (lit "data.csv"); Line [34%N; 116%N; 34%N]];
              log := [] |}
           (lit "data.csv") [34%N; 116%N; 34%N] [] [lit "a"] [[lit "1"]] None).
  - reflexivity.
  - reflexivity.
  - apply not_elem_of_cons. split; [discriminate | apply not_elem_of_nil].
  - left.
Defined.

(** The step of [import_] that sends [CREATE TABLE], once the table name
    is accepted. *)
Ltac import_create Hin Hquote :=
  rewrite bool_decide_eq_false_2 by exact Hquote;
  rewrite bind_run, execute_run;
  unfold after_input, after; cbn [stdin tail log];
  rewrite Hin; cbn [tail]; rewrite <- !app_assoc; cbn [app].

(** When the store refuses [CREATE TABLE] (the table exists already, for
    one), [import_] raises the error of the store: no row is read or
    inserted, nothing is committed, and the file is closed. *)
Theorem import_create_refused (rt : runtime) (w : world)
    (filename table_name : str) (rest : list keys) (header_row : list str)
    (reader : list (list str)) (error : option exception)
    (column_names : list str) (e : exception) :
  stdin w = Line filename :: Line table_name :: rest ->
  read_csv rt (log w ++ [Input import_prompt]) filename
    = inr {| csv_rows := header_row :: reader; csv_error := error |} ->
  [] ∉ header_row ->
  to_column_names header_row = Some column_names ->
  quote ∉ table_name ->
  sqlite_execute rt
    (log w ++ [Input import_prompt; OpenRead filename; Input table_prompt])
    (create_table_sql table_name column_names) = inl e ->
  import_ rt w
  = (Raises e,
     {| stdin := rest;
        log := log w
               ++ [Input import_prompt; OpenRead filename; Input table_prompt;
                   Execute (create_table_sql table_name column_names);
                   CloseFile filename] |}).
Proof.
  intros Hin Hread Hheader Hnames Hquote Hcreate.
  import_open Hin Hread. import_table Hin Hheader Hnames.
  import_create Hin Hquote.
  rewrite Hcreate. unfold after. cbn [stdin log]. log_norm. reflexivity.
Qed.

Lemma import_create_refused_witness :
  import_ {| int_max_str_digits := 4300;
             float_repr := fun _ => lit "0.0";
             bytes_repr := fun _ => lit "b''";
             builtin_message := fun _ => lit "error";
             read_csv := fun _ _ =>
               inr {| csv_rows := [[lit "n"]; [lit "7"]]; csv_error := None |};
             open_for_writing := fun _ _ => None;
             file_write := fun _ _ => None;
             sqlite_execute :=
               fun _ _ => inl (DatabaseError (lit "table t already exists"));
             sqlite_executemany := fun _ _ _ => None;
             sqlite_commit := fun _ => None |}
    {| stdin := [Line (lit "numbers.csv"); Line (lit "t")]; log := [] |}
  = (Raises (DatabaseError (lit "table t already exists")),
     {| stdin := [];
        log := [] ++ [Input import_prompt; OpenRead (lit "numbers.csv");
                      Input table_prompt;
                      Execute (create_table_sql (lit "t") [lit "n"]);
                      CloseFile (lit "numbers.csv")] |}).
Proof.
  apply (import_create_refused _
           {| stdin := [Line (lit "numbers.csv"); Line (lit "t")]; log := [] |}
           (lit "numbers.csv") (lit "t") [] [lit "n"] [[lit "7"]] None [lit "n"]).
  - reflexivity.
  - reflexivity.
  - apply not_elem_of_cons. split; [discriminate | apply not_elem_of_nil].
  - vm_compute. reflexivity.
  - apply not_elem_of_cons. split; [discriminate | apply not_elem_of_nil].
  - reflexivity.
Defined.

(** ** [export] *)

(** The loop of [export] when the file takes every row: the rows are
    written as they arrive, and the loop ends when the cursor, asked once
    more, has no further row, or with the error of the cursor. *)
Lemma export_rows_run (rt : runtime) (cur : cursor) (rows : list (list db_value)) :
  forall (next : N) (index : option N) (w : world),
    accepts rt (log w) (export_events rows next) ->
    export_rows rt cur rows next index w
    = (match fetch_error cur with
       | Some e => Raises e
       | None =>
           Returns (match rows with
                    | [] => index
                    | _ :: _ => Some (next + N.of_nat (length rows) - 1)%N
                    end)
       end,
       after w (export_events rows next ++ [Fetch])).
Proof.
  induction rows as [|row rows IH]; intros next index w Hacc.
  - cbn [export_rows export_events app]. rewrite bind_run, emit_run.
    destruct (fetch_error cur); reflexivity.
  - cbn [export_rows export_events] in *.
    destruct Hacc as [_ Hacc]. apply accepts_app in Hacc as [_ Hacc].
    cbn [accepts] in Hacc. destruct Hacc as [Hwrite Hacc].
    assert (Hindex :
      match rows with
      | [] => Some next
      | _ :: _ => Some (next + 1 + N.of_nat (length rows) - 1)%N
      end = Some (next + N.of_nat (length (row :: rows)) - 1)%N).
    { destruct rows; cbn [length]; f_equal; lia. }
    rewrite bind_run, emit_run, bind_run.
    destruct ((next mod 10000 =? 0)%N && (0 <? next)%N).
    + rewrite print_run, bind_run, writerow_run.
      unfold after, export_progress_message. cbn [log stdin]. rewrite Hwrite.
      rewrite IH by exact Hacc. rewrite Hindex.
      unfold after. cbn [stdin log]. log_norm. reflexivity.
    + rewrite ret_run, bind_run, writerow_run.
      unfold after. cbn [log stdin].
      rewrite app_nil_r in Hwrite, Hacc. rewrite Hwrite.
      rewrite IH by exact Hacc. rewrite Hindex.
      unfold after. cbn [stdin log]. log_norm. reflexivity.
Qed.

(** What [export] does when the query can be run, the file opened and
    every row written. *)
Lemma export_run (rt : runtime) (w : world) (query filename : str)
    (cur : cursor) (header : list str) :
  head (stdin w) = Some (Line filename) ->
  sqlite_execute rt (log w ++ [Input export_prompt]) query = inr cur ->
  description cur = Some header ->
  open_for_writing rt (log w ++ [Input export_prompt; Execute query]) filename
    = None ->
  accepts rt (log w ++ [Input export_prompt; Execute query; OpenWrite filename])
    (WriteRow (map Text header) :: export_events (pending cur) 0) ->
  export rt query w
  = (match fetch_error cur with
     | Some e => Raises e
     | None =>
         match pending cur with
         | [] => Raises UnboundLocalError
         | _ :: _ => Returns tt
         end
     end,
     {| stdin := tail (stdin w);
        log := log w
               ++ [Input export_prompt; Execute query; OpenWrite filename;
                   WriteRow (map Text header)]
               ++ export_events (pending cur) 0
               ++ [Fetch]
               ++ match fetch_error cur, pending cur with
                  | None, _ :: _ =>
                      [Print (lit "Exported "
                                ++ Py.format_N (N.of_nat (length (pending cur)))
                                ++ lit " row(s).")]
                  | _, _ => []
                  end
               ++ [CloseFile filename; CloseCursor] |}).
Proof.
  intros Hin Hexec Hdesc Hopen [Hheader Hacc].
  unfold export. rewrite bind_run, input_run.
  destruct (stdin w) as [|[line|] rest] eqn:Estdin; try discriminate.
  injection Hin as ->.
  rewrite finally_run, bind_run, execute_run.
  unfold after_input at 1. cbn [log]. rewrite Hexec.
  rewrite bind_run, get_log_run, bind_run, emit_run.
  rewrite after_input_after. cbn [log after app]. rewrite Hopen.
  rewrite finally_run, Hdesc, bind_run, writerow_run.
  rewrite <- app_assoc in Hacc. cbn [app] in Hacc.
  unfold after. cbn [log stdin]. rewrite <- !app_assoc. cbn [app].
  rewrite Hheader, bind_run, export_rows_run
    by (cbn [log]; rewrite <- ?app_assoc; exact Hacc).
  unfold after. cbn [stdin log]. rewrite Estdin. cbn [tail].
  destruct (fetch_error cur) as [e|].
  - cbn [stdin log]. log_norm. reflexivity.
  - destruct (pending cur) as [|row rows].
    + unfold raise. cbn [export_events log stdin app]. log_norm. reflexivity.
    + rewrite print_run. unfold after, export_total_message. cbn [log stdin].
      replace (0 + N.of_nat (length (row :: rows)) - 1 + 1)%N
        with (N.of_nat (length (row :: rows))) by (cbn [length]; lia).
      log_norm. reflexivity.
Qed.

(** C3 fails on the code for a result without rows.  The query runs, the
    file is opened and the header row written; the cursor is asked for a
    row and has none, so the loop variable [index] never gets a value,
    and the line that should report the total raises [UnboundLocalError]
    instead: nothing is printed. *)
Theorem export_zero_rows_raises (rt : runtime) (w : world) (query filename : str)
    (cur : cursor) (header : list str) :
  head (stdin w) = Some (Line filename) ->
  sqlite_execute rt (log w ++ [Input export_prompt]) query = inr cur ->
  description cur = Some header ->
  open_for_writing rt (log w ++ [Input export_prompt; Execute query]) filename
    = None ->
  file_write rt
    (log w ++ [Input export_prompt; Execute query; OpenWrite filename])
    (map Text header) = None ->
  pending cur = [] ->
  fetch_error cur = None ->
  export rt query w
  = (Raises UnboundLocalError,
     {| stdin := tail (stdin w);
        log := log w
               ++ [Input export_prompt; Execute query; OpenWrite filename;
                   WriteRow (map Text header); Fetch; CloseFile filename;
                   CloseCursor] |})
  /\ forall text, Print text ∈ log (snd (export rt query w)) -> Print text ∈ log w.
Proof.
  intros Hin Hexec Hdesc Hopen Hwrite Hrows Hend.
  assert (E := export_run rt w query filename cur header Hin Hexec Hdesc Hopen).
  rewrite Hrows, Hend in E. cbn [export_events app accepts] in E.
  specialize (E (conj Hwrite I)).
  split; [exact E|].
  rewrite E. cbn [snd log]. intros text Htext.
  apply elem_of_app in Htext as [Htext|Htext]; [exact Htext|].
  repeat (apply elem_of_cons in Htext as [Htext|Htext]; [discriminate Htext|]).
  now apply not_elem_of_nil in Htext.
Qed.

Lemma export_zero_rows_raises_witness :
  export (example_runtime [] (rows_cursor [lit "name"; lit "amount"] []))
    (lit "SELECT * FROM people")
    {| stdin := [Line (lit "out.csv")]; log := [] |}
  = (Raises UnboundLocalError,
     {| stdin := [];
        log := [Input (lit "Enter a CSV file to store the results of the most recent SQL query in: ");
                Execute (lit "SELECT * FROM people");
                OpenWrite (lit "out.csv");
                WriteRow [Text (lit "name"); Text (lit "amount")];
                Fetch; CloseFile (lit "out.csv"); CloseCursor] |}).
Proof.
  apply (export_zero_rows_raises
           (example_runtime [] (rows_cursor [lit "name"; lit "amount"] []))
           {| stdin := [Line (lit "out.csv")]; log := [] |}
           (lit "SELECT * FROM people") (lit "out.csv")
           (rows_cursor [lit "name"; lit "amount"] [])
           [lit "name"; lit "amount"]); reflexivity.
Defined.

(** ** [export]: results with rows, and failures *)

Lemma export_events_written (rows : list (list db_value)) :
  forall next : N, written_rows (export_events rows next) = rows.
Proof.
  induction rows as [|row rows IH]; intros next; [reflexivity|].
  cbn [export_events]. unfold written_rows in *.
  cbn [omap list_omap]. rewrite omap_app. cbn [omap list_omap].
  destruct ((next mod 10000 =? 0)%N && (0 <? next)%N); cbn; now rewrite IH.
Qed.

Lemma export_events_prints (rows : list (list db_value)) :
  forall (next : N) (text : str),
    Print text ∈ export_events rows next <->
    exists k : N,
      text = lit "Exported " ++ Py.format_N k ++ lit " rows..."
      /\ (next <= k < next + N.of_nat (length rows))%N
      /\ (k mod 10000 = 0)%N /\ (0 < k)%N.
Proof.
  induction rows as [|row rows IH]; intros next text.
  - cbn. split.
    + intros H. now apply not_elem_of_nil in H.
    + intros (k & _ & Hk & _). lia.
  - cbn [export_events length].
    rewrite elem_of_cons, elem_of_app, elem_of_cons, IH.
    destruct ((next mod 10000 =? 0)%N && (0 <? next)%N) eqn:E.
    + apply andb_true_iff in E as [E1 E2].
      apply N.eqb_eq in E1. apply N.ltb_lt in E2.
      rewrite list_elem_of_singleton. split.
      * intros [H|[H|[H|(k & -> & Hk & Hmod & Hpos)]]].
        -- discriminate H.
        -- injection H as ->. exists next. repeat split; try assumption; lia.
        -- discriminate H.
        -- exists k. repeat split; try assumption; lia.
      * intros (k & -> & Hk & Hmod & Hpos).
        destruct (N.eq_dec k next) as [->|Hne]; [right; left; reflexivity|].
        right. right. right. exists k. repeat split; try assumption; lia.
    + split.
      * intros [H|[H|[H|(k & -> & Hk & Hmod & Hpos)]]].
        -- discriminate H.
        -- now apply not_elem_of_nil in H.
        -- discriminate H.
        -- exists k. repeat split; try assumption; lia.
      * intros (k & -> & Hk & Hmod & Hpos).
        right. right. right. exists k. repeat split; try assumption; [|lia].
        destruct (N.eq_dec k next) as [->|Hne]; [|lia].
        apply andb_false_iff in E as [E|E];
          [apply N.eqb_neq in E | apply N.ltb_ge in E]; lia.
Qed.

(** For a result with at least one row, when every row is fetched and
    written without error, [export] returns after writing the header and
    then every row of the result, each once, in the order of the cursor
    and as soon as it has arrived; the only lines printed while the rows
    are written are [Exported k rows...] for the counts [k] = 10000,
    20000, ... below the number of rows; the cursor is asked once more
    after the last row, and the line printed then is [Exported n row(s).]
    with the number of rows; file and cursor are closed. *)
Theorem export_streams_rows (rt : runtime) (w : world) (query filename : str)
    (cur : cursor) (header : list str) :
  head (stdin w) = Some (Line filename) ->
  sqlite_execute rt (log w ++ [Input export_prompt]) query = inr cur ->
  description cur = Some header ->
  open_for_writing rt (log w ++ [Input export_prompt; Execute query]) filename
    = None ->
  accepts rt (log w ++ [Input export_prompt; Execute query; OpenWrite filename])
    (WriteRow (map Text header) :: export_events (pending cur) 0) ->
  pending cur <> [] ->
  fetch_error cur = None ->
  export rt query w
  = (Returns tt,
     {| stdin := tail (stdin w);
        log := log w
               ++ [Input export_prompt; Execute query; OpenWrite filename;
                   WriteRow (map Text header)]
               ++ export_events (pending cur) 0
               ++ [Fetch;
                   Print (lit "Exported "
                            ++ Py.format_N (N.of_nat (length (pending cur)))
                            ++ lit " row(s).");
                   CloseFile filename; CloseCursor] |})
  /\ written_rows (export_events (pending cur) 0) = pending cur
  /\ forall text,
       Print text ∈ export_events (pending cur) 0 <->
       exists k : N,
         text = lit "Exported " ++ Py.format_N k ++ lit " rows..."
         /\ (0 < k < N.of_nat (length (pending cur)))%N
         /\ (k mod 10000 = 0)%N.
Proof.
  intros Hin Hexec Hdesc Hopen Hacc Hrows Hend.
  split; [|split].
  - rewrite (export_run rt w query filename cur header Hin Hexec Hdesc Hopen Hacc).
    rewrite Hend.
    destruct (pending cur) as [|row rows]; [congruence|]. reflexivity.
  - apply export_events_written.
  - intros text. rewrite export_events_prints. split.
    + intros (k & Htext & Hk & Hmod & Hpos). exists k.
      repeat split; try assumption; lia.
    + intros (k & Htext & Hk & Hmod). exists k.
      repeat split; try assumption; lia.
Qed.

Lemma export_streams_rows_witness :
  export (example_runtime [] (rows_cursor [lit "n"] [[Integer 1]; [Null]]))
    (lit "SELECT n FROM t") {| stdin := [Line (lit "out.csv")]; log := [] |}
  = (Returns tt,
     {| stdin := [];
        log := [Input (lit "Enter a CSV file to store the results of the most recent SQL query in: ");
                Execute (lit "SELECT n FROM t");
                OpenWrite (lit "out.csv"); WriteRow [Text (lit "n")];
                Fetch; WriteRow [Integer 1]; Fetch; WriteRow [Null]; Fetch;
                Print (lit "Exported 2 row(s).");
                CloseFile (lit "out.csv"); CloseCursor] |}).
Proof.
  destruct (export_streams_rows
              (example_runtime [] (rows_cursor [lit "n"] [[Integer 1]; [Null]]))
              {| stdin := [Line (lit "out.csv")]; log := [] |}
              (lit "SELECT n FROM t") (lit "out.csv")
              (rows_cursor [lit "n"] [[Integer 1]; [Null]])
              [lit "n"]) as [Hrun _].
  - reflexivity.
  - reflexivity.
  - reflexivity.
  - reflexivity.
  - repeat split.
  - discriminate.
  - reflexivity.
  - rewrite Hrun. vm_compute. reflexivity.
Defined.

(** When the cursor fails while the rows are fetched, [export] raises its
    error after having written the header and the rows that arrived
    before: the file is closed with those rows in it, no total is
    printed, and the cursor is closed. *)
Theorem export_stops_at_fetch_error (rt : runtime) (w : world)
    (query filename : str) (cur : cursor) (header : list str) (e : exception) :
  head (stdin w) = Some (Line filename) ->
  sqlite_execute rt (log w ++ [Input export_prompt]) query = inr cur ->
  description cur = Some header ->
  open_for_writing rt (log w ++ [Input export_prompt; Execute query]) filename
    = None ->
  accepts rt (log w ++ [Input export_prompt; Execute query; OpenWrite filename])
    (WriteRow (map Text header) :: export_events (pending cur) 0) ->
  fetch_error cur = Some e ->
  export rt query w
  = (Raises e,
     {| stdin := tail (stdin w);
        log := log w
               ++ [Input export_prompt; Execute query; OpenWrite filename;
                   WriteRow (map Text header)]
               ++ export_events (pending cur) 0
               ++ [Fetch; CloseFile filename; CloseCursor] |})
  /\ written_rows (WriteRow (map Text header) :: export_events (pending cur) 0)
     = map Text header :: pending cur.
Proof.
  intros Hin Hexec Hdesc Hopen Hacc Hend. split.
  - rewrite (export_run rt w query filename cur header Hin Hexec Hdesc Hopen Hacc).
    rewrite Hend. reflexivity.
  - unfold written_rows. cbn [omap list_omap]. f_equal.
    apply export_events_written.
Qed.

Lemma export_stops_at_fetch_error_witness :
  export (example_runtime []
            {| description := Some [lit "n"]; pending := [[Integer 1]];
               fetch_error := Some (DatabaseError (lit "database disk image is malformed"));
               rowcount := (-1)%Z |})
    (lit "SELECT n FROM t") {| stdin := [Line (lit "out.csv")]; log := [] |}
  = (Raises (DatabaseError (lit "database disk image is malformed")),
     {| stdin := [];
        log := [Input (lit "Enter a CSV file to store the results of the most recent SQL query in: ");
                Execute (lit "SELECT n FROM t");
                OpenWrite (lit "out.csv"); WriteRow [Text (lit "n")];
                Fetch; WriteRow [Integer 1]; Fetch;
                CloseFile (lit "out.csv"); CloseCursor] |}).
Proof.
  destruct (export_stops_at_fetch_error
              (example_runtime []
                 {| description := Some [lit "n"]; pending := [[Integer 1]];
                    fetch_error := Some (DatabaseError (lit "database disk image is malformed"));
                    rowcount := (-1)%Z |})
              {| stdin := [Line (lit "out.csv")]; log := [] |}
              (lit "SELECT n FROM t") (lit "out.csv")
              {| description := Some [lit "n"]; pending := [[Integer 1]];
                 fetch_error := Some (DatabaseError (lit "database disk image is malformed"));
                 rowcount := (-1)%Z |}
              [lit "n"]
              (DatabaseError (lit "database disk image is malformed")))
    as [Hrun _].
  - reflexivity.
  - reflexivity.
  - reflexivity.
  - reflexivity.
  - repeat split.
  - reflexivity.
  - rewrite Hrun. vm_compute. reflexivity.
Defined.

(** When the query fails on re-execution [export] raises the error of the
    store without opening the file; when the file cannot be opened it
    raises the error of [open]; in both cases the cursor is closed and no
    row is written. *)
Theorem export_fails_cleanly (rt : runtime) (w : world) (query filename : str) :
  head (stdin w) = Some (Line filename) ->
  (forall e,
     sqlite_execute rt (log w ++ [Input export_prompt]) query = inl e ->
     export rt query w
     = (Raises e,
        {| stdin := tail (stdin w);
           log := log w ++ [Input export_prompt; Execute query; CloseCursor] |}))
  /\ (forall cur e,
        sqlite_execute rt (log w ++ [Input export_prompt]) query = inr cur ->
        open_for_writing rt (log w ++ [Input export_prompt; Execute query])
          filename = Some e ->
        export rt query w
        = (Raises e,
           {| stdin := tail (stdin w);
              log := log w ++ [Input export_prompt; Execute query;
                               OpenWrite filename; CloseCursor] |})).
Proof.
  intros Hin.
  destruct (stdin w) as [|[line|] rest] eqn:Estdin; try discriminate.
  injection Hin as ->.
  split.
  - intros e Hexec. unfold export. rewrite bind_run, input_run, Estdin.
    rewrite finally_run, bind_run, execute_run.
    unfold after_input at 1. cbn [log]. rewrite Hexec.
    rewrite after_after, after_input_after, Estdin. reflexivity.
  - intros cur e Hexec Hopen. unfold export. rewrite bind_run, input_run, Estdin.
    rewrite finally_run, bind_run, execute_run.
    unfold after_input at 1. cbn [log]. rewrite Hexec.
    rewrite bind_run, get_log_run, bind_run, emit_run.
    rewrite after_input_after. cbn [log after app]. rewrite Hopen.
    unfold raise, after. cbn [stdin log]. rewrite Estdin. log_norm. reflexivity.
Qed.

Lemma export_fails_cleanly_witness :
  export (refusing_runtime (lit "no such table: t")) (lit "SELECT n FROM t")
    {| stdin := [Line (lit "out.csv")]; log := [] |}
  = (Raises (DatabaseError (lit "no such table: t")),
     {| stdin := [];
        log := [Input (lit "Enter a CSV file to store the results of the most recent SQL query in: ");
                Execute (lit "SELECT n FROM t");
                CloseCursor] |}).
Proof.
  destruct (export_fails_cleanly (refusing_runtime (lit "no such table: t"))
              {| stdin := [Line (lit "out.csv")]; log := [] |}
              (lit "SELECT n FROM t") (lit "out.csv")) as [Hfail _].
  - reflexivity.
  - apply Hfail. reflexivity.
Defined.

(** ** [print_table] *)

Lemma measure_row_ok (rt : runtime) (row : list db_value) :
  forall (index : nat) (widths : list nat),
    (index + length row <= length widths)%nat ->
    exists widths', measure_row rt row index widths = Returns widths'
                    /\ length widths' = length widths.
Proof.
  induction row as [|value row IH]; intros index widths Hlen.
  - exists widths. split; reflexivity.
  - cbn [measure_row]. cbn [length] in Hlen.
    destruct (lookup_lt_is_Some_2 widths index) as [width ->]; [lia|].
    destruct (IH (S index)
                (if (width <? length (py_str rt value))%nat
                 then <[index := length (py_str rt value)]> widths
                 else widths)) as (widths' & Hrun & Hlen').
    { destruct (width <? _)%nat; rewrite ?length_insert; lia. }
    exists widths'. split; [exact Hrun|].
    rewrite Hlen'. destruct (width <? _)%nat; rewrite ?length_insert; reflexivity.
Qed.

Lemma measure_table_ok (rt : runtime) (table : list (list db_value)) :
  forall widths : list nat,
    Forall (fun row => (length row <= length widths)%nat) table ->
    exists widths', measure_table rt table widths = Returns widths'
                    /\ length widths' = length widths.
Proof.
  induction table as [|row table IH]; intros widths Hall.
  - exists widths. split; reflexivity.
  - apply Forall_cons in Hall as [Hrow Hall]. cbn [measure_table].
    destruct (measure_row_ok rt row 0 widths) as (widths1 & -> & Hlen1); [lia|].
    destruct (IH widths1) as (widths2 & Hrun & Hlen2).
    { now rewrite Hlen1. }
    exists widths2. split; [exact Hrun | congruence].
Qed.

Lemma print_cells_run (rt : runtime) (row : list db_value) :
  forall (widths : list nat) (w : world),
    print_cells rt row widths w = (Returns tt, after w (cells_events rt row widths)).
Proof.
  induction row as [|value row IH]; intros [|width widths] w; cbn;
    try now rewrite after_nil.
  change (print_cells rt row widths (after w [PrintPart (cell_text rt value width)])
          = (Returns tt, after w (cells_events rt (value :: row) (width :: widths)))).
  rewrite IH, after_after. reflexivity.
Qed.

Lemma print_rows_run (rt : runtime) (widths : list nat)
    (table : list (list db_value)) :
  forall w : world,
    print_rows rt table widths w = (Returns tt, after w (rows_events rt table widths)).
Proof.
  induction table as [|row table IH]; intros w.
  - cbn. now rewrite after_nil.
  - cbn [print_rows rows_events flat_map].
    rewrite bind_run, print_cells_run, bind_run, print_run, IH, !after_after.
    now rewrite <- !app_assoc.
Qed.

Lemma measure_row_long (rt : runtime) (row : list db_value) :
  forall (index : nat) (widths : list nat),
    (index <= length widths)%nat ->
    (length widths < index + length row)%nat ->
    measure_row rt row index widths = Raises IndexError.
Proof.
  induction row as [|value row IH]; intros index widths Hindex Hlen.
  - cbn [length] in Hlen. lia.
  - cbn [measure_row]. cbn [length] in Hlen.
    destruct (widths !! index) as [width|] eqn:E; [|reflexivity].
    apply lookup_lt_Some in E.
    apply IH; destruct (width <? _)%nat; rewrite ?length_insert; lia.
Qed.

Lemma measure_table_long (rt : runtime) (table : list (list db_value)) :
  forall widths : list nat,
    Exists (fun row => (length widths < length row)%nat) table ->
    measure_table rt table widths = Raises IndexError.
Proof.
  induction table as [|row table IH]; intros widths Hex.
  - inversion Hex.
  - cbn [measure_table].
    destruct (Nat.le_gt_cases (length row) (length widths)) as [Hle|Hgt].
    + destruct (measure_row_ok rt row 0 widths) as (widths1 & -> & Hlen1); [lia|].
      apply IH. rewrite Hlen1.
      apply Exists_cons in Hex as [Hrow|Hrest]; [lia | exact Hrest].
    + rewrite measure_row_long by lia. reflexivity.
Qed.

(** A table with a row that has more cells than its first row is not
    printed at all: [print_table] raises [IndexError] while it measures
    the columns, before the first line is written. *)
Theorem print_table_long_row (rt : runtime) (first : list db_value)
    (table : list (list db_value)) (w : world) :
  Exists (fun row => (length first < length row)%nat) table ->
  print_table rt (first :: table) w = (Raises IndexError, w).
Proof.
  intros Hex. unfold print_table. rewrite bind_run. unfold lift.
  rewrite measure_table_long; [reflexivity|].
  rewrite repeat_length. now apply Exists_cons_tl.
Qed.

Lemma print_table_long_row_witness :
  print_table (example_runtime [] no_rows_cursor) [[Text (lit "a")];
                                                   [Integer 1; Integer 2]]
    {| stdin := []; log := [] |}
  = (Raises IndexError, {| stdin := []; log := [] |}).
Proof.
  apply print_table_long_row. left. cbn [length]. lia.
Defined.

Lemma cell_length_nil (rt : runtime) (j : nat) : cell_length rt j [] = 0%nat.
Proof. unfold cell_length. now rewrite lookup_nil. Qed.

Lemma measure_row_lookup (rt : runtime) (row : list db_value) :
  forall (index : nat) (widths widths' : list nat),
    measure_row rt row index widths = Returns widths' ->
    forall i,
      widths' !! i
      = (fun w0 => if (index <=? i)%nat
                   then Nat.max w0 (cell_length rt (i - index) row)
                   else w0) <$> widths !! i.
Proof.
  induction row as [|value row IH]; intros index widths widths' Hrun i.
  - injection Hrun as <-. destruct (widths !! i) as [w0|]; [|reflexivity].
    cbn [fmap option_fmap option_map]. rewrite cell_length_nil, Nat.max_0_r. now destruct (index <=? i)%nat.
  - cbn [measure_row] in Hrun.
    destruct (widths !! index) as [width|] eqn:Eindex; [|discriminate].
    rewrite (IH _ _ _ Hrun i).
    pose proof (lookup_lt_Some _ _ _ Eindex) as Hlt.
    assert (Hstep :
      (if (width <? length (py_str rt value))%nat
       then <[index := length (py_str rt value)]> widths else widths) !! i
      = if decide (i = index)
        then Some (Nat.max width (length (py_str rt value)))
        else widths !! i).
    { destruct (Nat.ltb_spec width (length (py_str rt value))) as [Hw|Hw];
        destruct (decide (i = index)) as [->|Hne].
      - rewrite list_lookup_insert_eq by exact Hlt. f_equal. lia.
      - rewrite list_lookup_insert_ne by congruence. reflexivity.
      - rewrite Eindex. f_equal. lia.
      - reflexivity. }
    rewrite Hstep.
    destruct (decide (i = index)) as [->|Hne].
    + rewrite Eindex. cbn [fmap option_fmap option_map].
      replace (S index <=? index)%nat with false
        by (symmetry; apply Nat.leb_gt; lia).
      rewrite Nat.leb_refl, Nat.sub_diag. reflexivity.
    + destruct (widths !! i) as [w0|]; [|reflexivity].
      cbn [fmap option_fmap option_map]. f_equal.
      destruct (Nat.leb_spec (S index) i) as [Hle|Hgt].
      * replace (index <=? i)%nat with true
          by (symmetry; apply Nat.leb_le; lia).
        unfold cell_length.
        replace (i - index)%nat with (S (i - S index)) by lia. reflexivity.
      * replace (index <=? i)%nat with false
          by (symmetry; apply Nat.leb_gt; lia).
        reflexivity.
Qed.

Lemma measure_table_lookup (rt : runtime) (table : list (list db_value)) :
  forall (widths widths' : list nat),
    measure_table rt table widths = Returns widths' ->
    forall i,
      widths' !! i = (fun w0 => Nat.max w0 (column_width rt table i)) <$> widths !! i.
Proof.
  induction table as [|row table IH]; intros widths widths' Hrun i.
  - injection Hrun as <-. destruct (widths !! i) as [w0|]; [|reflexivity].
    cbn [fmap option_fmap option_map column_width map list_max fold_right].
    unfold column_width. cbn [map list_max fold_right]. now rewrite Nat.max_0_r.
  - cbn [measure_table] in Hrun.
    destruct (measure_row rt row 0 widths) as [widths1| |] eqn:Erow; try discriminate.
    rewrite (IH _ _ Hrun i), (measure_row_lookup _ _ _ _ _ Erow i).
    destruct (widths !! i) as [w0|]; [|reflexivity].
      cbn [fmap option_fmap option_map]. f_equal.
    change (0 <=? i)%nat with true. cbv iota.
    rewrite Nat.sub_0_r. unfold column_width. cbn [map].
    symmetry. apply Nat.max_assoc.
Qed.

Lemma lookup_repeat {A} (x : A) (n i : nat) :
  repeat x n !! i = if (i <? n)%nat then Some x else None.
Proof.
  revert i. induction n as [|n IH]; intros [|i]; cbn; try reflexivity.
  apply IH.
Qed.

Lemma measure_table_widths (rt : runtime) (table : list (list db_value))
    (n : nat) (widths : list nat) :
  measure_table rt table (repeat 0%nat n) = Returns widths ->
  widths = column_widths rt table n.
Proof.
  intros Hrun. apply list_eq. intros i.
  rewrite (measure_table_lookup _ _ _ _ Hrun i).
  unfold column_widths. rewrite list_lookup_fmap.
  rewrite lookup_repeat.
  destruct (Nat.ltb_spec i n) as [Hlt|Hge].
  - rewrite lookup_seq_lt by exact Hlt. reflexivity.
  - rewrite lookup_seq_ge by exact Hge. reflexivity.
Qed.

Lemma cell_length_le_width (rt : runtime) (table : list (list db_value))
    (row : list db_value) (j : nat) :
  row ∈ table -> (cell_length rt j row <= column_width rt table j)%nat.
Proof.
  intros Hin. unfold column_width.
  assert (H : Forall (fun k => (k <= list_max (map (cell_length rt j) table))%nat)
                (map (cell_length rt j) table)).
  { apply list_max_le. lia. }
  rewrite Forall_forall in H. apply H.
  apply list_elem_of_fmap. exists row. auto.
Qed.

(** [print_table] prints every row of the table when no row is longer
    than the first, with each column as wide as its longest cell. *)
Lemma print_table_run (rt : runtime) (first : list db_value)
    (table : list (list db_value)) (w : world) :
  Forall (fun row => (length row <= length first)%nat) table ->
  print_table rt (first :: table) w
  = (Returns tt,
     after w (rows_events rt (first :: table)
                (column_widths rt (first :: table) (length first)))).
Proof.
  intros Hall. unfold print_table.
  destruct (measure_table_ok rt (first :: table) (repeat 0%nat (length first)))
    as (widths & Hrun & _).
  { rewrite repeat_length. constructor; [lia | exact Hall]. }
  rewrite bind_run. unfold lift. rewrite Hrun.
  rewrite (measure_table_widths _ _ _ _ Hrun). apply print_rows_run.
Qed.

(** When no row has more cells than the first, [print_table] prints every
    row with the widths of the columns being the greatest length of a
    cell in each column, the first row included; so every cell of a
    column is printed with the same length, its width and three more, and
    the bars of all lines are one below the other. *)
Theorem print_table_aligned (rt : runtime) (first : list db_value)
    (table : list (list db_value)) (w : world) :
  Forall (fun row => (length row <= length first)%nat) table ->
  print_table rt (first :: table) w
  = (Returns tt,
     after w (rows_events rt (first :: table)
                (column_widths rt (first :: table) (length first))))
  /\ forall row j value,
       row ∈ first :: table -> row !! j = Some value ->
       length (cell_text rt value (column_width rt (first :: table) j))
       = (column_width rt (first :: table) j + 3)%nat.
Proof.
  intros Hall. split.
  - now apply print_table_run.
  - intros row j value Hin Hvalue.
    pose proof (cell_length_le_width rt (first :: table) row j Hin) as Hle.
    unfold cell_length in Hle. rewrite Hvalue in Hle.
    unfold cell_text. rewrite !length_app, repeat_length.
    change (length (lit "| ")) with 2%nat. change (length (lit " ")) with 1%nat.
    lia.
Qed.

Lemma print_table_aligned_witness :
  print_table (example_runtime [] no_rows_cursor)
    [[Text (lit "name"); Text (lit "n")]; [Text (lit "Bo"); Integer 1234]]
    {| stdin := []; log := [] |}
  = (Returns tt,
     {| stdin := [];
        log := [PrintPart (lit "| name "); PrintPart (lit "| n    ");
                Print (lit "|");
                PrintPart (lit "| Bo   "); PrintPart (lit "| 1234 ");
                Print (lit "|")] |}).
Proof.
  destruct (print_table_aligned (example_runtime [] no_rows_cursor)
              [Text (lit "name"); Text (lit "n")]
              [[Text (lit "Bo"); Integer 1234]]
              {| stdin := []; log := [] |}) as [Hrun _].
  - repeat constructor.
  - rewrite Hrun. vm_compute. reflexivity.
Defined.

(** ** [execute_sql] *)

(** The loop that fetches up to [n] rows: it asks for rows until it has
    [n] or has asked for one more than there are, which is when the error
    of the cursor shows. *)
Lemma fetch_rows_run (cur : cursor) (n : nat) :
  forall (unfetched rows : list (list db_value)) (w : world),
    fetch_rows n cur unfetched rows w
    = (match (if (length unfetched <? n)%nat then fetch_error cur else None) with
       | Some e => Raises e
       | None =>
           Returns (rows ++ map (map null_to_text) (take n unfetched),
                    drop n unfetched)
       end,
       after w (repeat Fetch (Nat.min n (S (length unfetched))))).
Proof.
  induction n as [|n IH]; intros unfetched rows w.
  - cbn. now rewrite app_nil_r, after_nil.
  - cbn [fetch_rows]. rewrite bind_run, fetchone_run.
    destruct unfetched as [|row unfetched].
    + cbn [length Nat.ltb Nat.leb Nat.min repeat take drop map].
      rewrite app_nil_r, Nat.min_0_r. destruct (fetch_error cur); reflexivity.
    + rewrite IH, after_after.
      change (length (row :: unfetched) <? S n)%nat
        with (length unfetched <? n)%nat.
      cbn [take drop map length Nat.min repeat app].
      rewrite <- app_assoc. reflexivity.
Qed.

Lemma execute_sql_failed (rt : runtime) (w : world) (query : str) (e : exception) :
  sqlite_execute rt (log w) query = inl e ->
  execute_sql rt query w = (Raises e, after w [Execute query; CloseCursor]).
Proof.
  intros H. unfold execute_sql.
  rewrite finally_run, bind_run, execute_run, H, after_after. reflexivity.
Qed.

Lemma execute_sql_uncommitted (rt : runtime) (w : world) (query : str)
    (cur : cursor) (e : exception) :
  sqlite_execute rt (log w) query = inr cur ->
  sqlite_commit rt (log w ++ [Execute query]) = Some e ->
  execute_sql rt query w
  = (Raises e, after w [Execute query; Commit; CloseCursor]).
Proof.
  intros H Hcommit. unfold execute_sql.
  rewrite finally_run, bind_run, execute_run, H, bind_run, commit_run.
  cbn [after log]. rewrite Hcommit. unfold after. cbn [stdin log].
  log_norm. reflexivity.
Qed.

(** The steps of [execute_sql] up to the rows: the statement runs, is
    committed, and the rows are asked for. *)
Ltac execute_sql_start H Hcommit :=
  unfold execute_sql;
  rewrite finally_run, bind_run, execute_run, H, bind_run, commit_run;
  cbn [after log]; rewrite Hcommit; rewrite bind_run, fetch_rows_run.

Lemma execute_sql_mutating (rt : runtime) (w : world) (query : str) (cur : cursor) :
  sqlite_execute rt (log w) query = inr cur ->
  sqlite_commit rt (log w ++ [Execute query]) = None ->
  description cur = None ->
  ((length (pending cur) < 20)%nat -> fetch_error cur = None) ->
  execute_sql rt query w
  = (Returns false,
     after w ([Execute query; Commit]
              ++ repeat Fetch (Nat.min 20 (S (length (pending cur))))
              ++ [Print (mutation_summary cur); CloseCursor])).
Proof.
  intros H Hcommit Hdesc Hend. execute_sql_start H Hcommit.
  replace (if (length (pending cur) <? 20)%nat then fetch_error cur else None)
    with (@None exception).
  2:{ destruct (Nat.ltb_spec (length (pending cur)) 20); [|reflexivity].
      symmetry. now apply Hend. }
  rewrite Hdesc, bind_run. unfold mutation_summary, modified_message, done_message.
  destruct (0 <=? rowcount cur)%Z;
    rewrite print_run, ret_run; unfold after; cbn [stdin log];
    log_norm; reflexivity.
Qed.


(** What [execute_sql] does for a statement that produces rows, none of
    them longer than the list of column names, when the commit succeeds
    and the rows it asks for arrive. *)
Lemma execute_sql_rows_run (rt : runtime) (w : world) (query : str)
    (cur : cursor) (columns : list str) :
  sqlite_execute rt (log w) query = inr cur ->
  description cur = Some columns ->
  sqlite_commit rt (log w ++ [Execute query]) = None ->
  ((length (pending cur) <= 20)%nat -> fetch_error cur = None) ->
  Forall (fun row => (length row <= length columns)%nat) (pending cur) ->
  execute_sql rt query w
  = (Returns true,
     after w
       ([Execute query; Commit]
        ++ repeat Fetch (Nat.min 20 (S (length (pending cur))))
        ++ rows_events rt (preview_table columns (pending cur))
             (column_widths rt (preview_table columns (pending cur))
                (length columns))
        ++ (if (length (pending cur) =? 0)%nat then [] else [Fetch])
        ++ [Print (preview_summary (length (pending cur))); CloseCursor])).
Proof.
  intros Hexec Hdesc Hcommit Hend Hall.
  assert (Hprint := fun w0 =>
    print_table_run rt (map Text columns)
      (map (map null_to_text) (take 20 (pending cur))) w0).
  rewrite length_map in Hprint.
  assert (Hshort : Forall (fun row => (length row <= length columns)%nat)
                     (map (map null_to_text) (take 20 (pending cur)))).
  { apply Forall_forall. intros row Hrow.
    apply list_elem_of_fmap in Hrow as (row0 & -> & Hrow0).
    rewrite length_map.
    eapply Forall_forall in Hall; [exact Hall|].
    apply elem_of_take in Hrow0 as (i & Hi & _).
    eapply list_elem_of_lookup_2, Hi. }
  execute_sql_start Hexec Hcommit.
  replace (if (length (pending cur) <? 20)%nat then fetch_error cur else None)
    with (@None exception).
  2:{ destruct (Nat.ltb_spec (length (pending cur)) 20); [|reflexivity].
      symmetry. apply Hend. lia. }
  cbn [app]. rewrite Hdesc, bind_run, (Hprint _ Hshort), bind_run.
  fold (preview_table columns (pending cur)).
  destruct (pending cur) as [|row0 rest] eqn:Ep.
  - cbn [take map length Nat.eqb]. rewrite print_run, ret_run.
    unfold after, zero_rows_message, preview_summary.
    cbn [stdin log length Nat.eqb]. log_norm. reflexivity.
  - cbn [take map]. rewrite bind_run, fetchone_run.
    destruct (Nat.leb_spec (length (row0 :: rest)) 20) as [Hle|Hgt].
    + rewrite drop_ge by exact Hle. rewrite (Hend Hle).
      rewrite print_run, ret_run.
      unfold after, all_rows_message, preview_summary.
      cbn [stdin log length Nat.eqb].
      replace (S (length rest) <=? 20)%nat with true
        by (symmetry; apply Nat.leb_le; exact Hle).
      replace (S (length (map (map null_to_text) (take 19 rest))))
        with (S (length rest)).
      2:{ rewrite length_map, length_take. cbn [length] in Hle. lia. }
      log_norm. reflexivity.
    + destruct (drop 20 (row0 :: rest)) as [|r rs] eqn:Ed.
      { apply (f_equal length) in Ed. rewrite length_drop in Ed.
        cbn [length] in Ed, Hgt. lia. }
      rewrite print_run, ret_run.
      unfold after, truncated_message, preview_summary.
      cbn [stdin log length Nat.eqb].
      replace (S (length rest) <=? 20)%nat with false
        by (symmetry; apply Nat.leb_gt; exact Hgt).
      log_norm. reflexivity.
Qed.

Lemma preview_summary_truncated (n : nat) :
  preview_summary n = lit "Output first 20 rows." <-> (20 < n)%nat.
Proof.
  unfold preview_summary.
  destruct n as [|n]; cbn [Nat.eqb].
  { split; [intros H; discriminate H | lia]. }
  destruct (Nat.leb_spec (S n) 20) as [Hle|Hgt].
  - split; [cbn; intros H; discriminate H | lia].
  - split; [lia | reflexivity].
Qed.

Lemma preview_summary_zero (n : nat) :
  preview_summary n = lit "Query returned zero rows." <-> n = 0%nat.
Proof.
  unfold preview_summary.
  destruct n as [|n]; cbn [Nat.eqb].
  { split; reflexivity. }
  destruct (S n <=? 20)%nat;
    (split; [cbn; intros H; discriminate H | discriminate]).
Qed.

(** C6, as amended.  For a statement that produces rows, when the commit
    succeeds and the rows asked for arrive (none of them longer than the
    list of column names), [execute_sql] returns [True] after this: it
    asks the cursor for rows until it has 20 or is told that there are no
    more; it prints the table made of the header and those rows (with
    [NULL] for null cells), every column as wide as its longest cell;
    when it has at least one row it asks the cursor once more; and it
    prints one line: [Query returned zero rows.] for no row,
    [Output all n row(s).] for [n] rows up to 20, and
    [Output first 20 rows.] when the extra row was there.  With no row
    nothing is asked of the cursor after the table.  So 25 rows give the
    header with 20 rows and the truncation line, 20 rows give the line
    with the total 20, and the line for no row is neither of these. *)
Theorem execute_sql_preview (rt : runtime) (w : world) (query : str)
    (cur : cursor) (columns : list str) :
  sqlite_execute rt (log w) query = inr cur ->
  description cur = Some columns ->
  sqlite_commit rt (log w ++ [Execute query]) = None ->
  ((length (pending cur) <= 20)%nat -> fetch_error cur = None) ->
  Forall (fun row => (length row <= length columns)%nat) (pending cur) ->
  execute_sql rt query w
  = (Returns true,
     after w
       ([Execute query; Commit]
        ++ repeat Fetch (Nat.min 20 (S (length (pending cur))))
        ++ rows_events rt (preview_table columns (pending cur))
             (column_widths rt (preview_table columns (pending cur))
                (length columns))
        ++ (if (length (pending cur) =? 0)%nat then [] else [Fetch])
        ++ [Print (preview_summary (length (pending cur))); CloseCursor]))
  /\ length (preview_table columns (pending cur))
     = S (Nat.min 20 (length (pending cur)))
  /\ (length (pending cur) = 25%nat ->
      length (preview_table columns (pending cur)) = 21%nat
      /\ preview_summary (length (pending cur)) = lit "Output first 20 rows.")
  /\ (length (pending cur) = 20%nat ->
      preview_summary (length (pending cur)) = lit "Output all 20 row(s).")
  /\ (length (pending cur) = 0%nat ->
      preview_summary (length (pending cur)) = lit "Query returned zero rows.")
  /\ (forall n, preview_summary n = lit "Output first 20 rows." <-> (20 < n)%nat)
  /\ (forall n, preview_summary n = lit "Query returned zero rows." <-> n = 0%nat).
Proof.
  intros Hexec Hdesc Hcommit Hend Hall.
  assert (Hlen : length (preview_table columns (pending cur))
                 = S (Nat.min 20 (length (pending cur)))).
  { unfold preview_table. cbn [length]. now rewrite length_map, length_take. }
  split; [now apply execute_sql_rows_run|].
  split; [exact Hlen|].
  split; [|split; [|split; [|split]]].
  - intros H. rewrite Hlen, H. split; reflexivity.
  - intros ->. reflexivity.
  - intros ->. reflexivity.
  - apply preview_summary_truncated.
  - apply preview_summary_zero.
Qed.

Lemma execute_sql_preview_witness :
  execute_sql
    (example_runtime []
       (rows_cursor [lit "name"; lit "amount"]
          (repeat [Text (lit "Ann"); Null] 25)))
    (lit "SELECT * FROM people") {| stdin := []; log := [] |}
  = (Returns true,
     {| stdin := [];
        log := [Execute (lit "SELECT * FROM people"); Commit]
               ++ repeat Fetch 20
               ++ [PrintPart (lit "| name "); PrintPart (lit "| amount ");
                   Print (lit "|")]
               ++ concat (repeat [PrintPart (lit "| Ann  ");
                                  PrintPart (lit "| NULL   ");
                                  Print (lit "|")] 20)
               ++ [Fetch; Print (lit "Output first 20 rows."); CloseCursor] |}).
Proof.
  destruct (execute_sql_preview
              (example_runtime []
                 (rows_cursor [lit "name"; lit "amount"]
                    (repeat [Text (lit "Ann"); Null] 25)))
              {| stdin := []; log := [] |}
              (lit "SELECT * FROM people")
              (rows_cursor [lit "name"; lit "amount"]
                 (repeat [Text (lit "Ann"); Null] 25))
              [lit "name"; lit "amount"])
    as [Hrun _].
  - reflexivity.
  - reflexivity.
  - reflexivity.
  - reflexivity.
  - cbn [pending rows_cursor]. apply Forall_forall. intros row Hrow.
    apply list_elem_of_In, repeat_spec in Hrow. subst row. cbn. lia.
  - rewrite Hrun. vm_compute. reflexivity.
Defined.

(** C6, as the specification words it, fails for a result without rows:
    the cursor is asked once, before anything is printed, and says that
    there are no rows; after the header is printed nothing more is asked
    of it, and the line for zero rows follows at once. *)
Lemma execute_sql_zero_rows_not_pulled :
  execute_sql (example_runtime [] (rows_cursor [lit "name"] []))
    (lit "SELECT name FROM people") {| stdin := []; log := [] |}
  = (Returns true,
     {| stdin := [];
        log := [Execute (lit "SELECT name FROM people"); Commit; Fetch;
                PrintPart (lit "| name "); Print (lit "|");
                Print (lit "Query returned zero rows."); CloseCursor] |})
  /\ Fetch ∉ [Print (lit "Query returned zero rows."); CloseCursor].
Proof.
  split; [vm_compute; reflexivity|].
  intros H. repeat (apply elem_of_cons in H as [H|H]; [discriminate H|]).
  now apply not_elem_of_nil in H.
Qed.

(** ** [execute_sql]: statements without rows, and failures *)

(** A statement the store refuses is not committed and nothing is
    printed for it: [execute_sql] closes the cursor and lets the error
    through.  When the statement runs and the commit fails (as for
    [INSERT ... RETURNING], whose rows have not been fetched then), no
    row is asked for and nothing is printed either: the error of the
    commit goes through, whether the statement produces rows or not.  A
    statement without description that is committed is reported, after
    the cursor was asked for rows, with [Modified n row(s).] when the
    store gives a count and [Done.] when it gives a negative one; the
    cursor is closed and the result is [False]. *)
Theorem execute_sql_without_rows (rt : runtime) (w : world) (query : str) :
  (forall e, sqlite_execute rt (log w) query = inl e ->
     execute_sql rt query w = (Raises e, after w [Execute query; CloseCursor]))
  /\ (forall cur e, sqlite_execute rt (log w) query = inr cur ->
        sqlite_commit rt (log w ++ [Execute query]) = Some e ->
        execute_sql rt query w
        = (Raises e, after w [Execute query; Commit; CloseCursor]))
  /\ (forall cur, sqlite_execute rt (log w) query = inr cur ->
        sqlite_commit rt (log w ++ [Execute query]) = None ->
        description cur = None ->
        ((length (pending cur) < 20)%nat -> fetch_error cur = None) ->
        execute_sql rt query w
        = (Returns false,
           after w
             ([Execute query; Commit]
              ++ repeat Fetch (Nat.min 20 (S (length (pending cur))))
              ++ [Print (if (0 <=? rowcount cur)%Z
                         then lit "Modified " ++ Py.format_Z (rowcount cur)
                                ++ lit " row(s)."
                         else lit "Done.");
                  CloseCursor]))).
Proof.
  split; [|split].
  - intros e He. now apply execute_sql_failed.
  - intros cur e Hcur Hcommit.
    exact (execute_sql_uncommitted rt w query cur e Hcur Hcommit).
  - intros cur Hcur Hcommit Hdesc Hend.
    now apply execute_sql_mutating.
Qed.

Lemma execute_sql_without_rows_witness :
  execute_sql
    (uncommitted_runtime [] (rows_cursor [lit "id"] [[Integer 1]])
       (lit "cannot commit transaction - SQL statements in progress"))
    (lit "INSERT INTO t VALUES (7) RETURNING id") {| stdin := []; log := [] |}
  = (Raises (DatabaseError
               (lit "cannot commit transaction - SQL statements in progress")),
     {| stdin := [];
        log := [Execute (lit "INSERT INTO t VALUES (7) RETURNING id"); Commit;
                CloseCursor] |})
  /\ execute_sql
       (example_runtime []
          {| description := None; pending := []; fetch_error := None;
             rowcount := 3%Z |})
       (lit "DELETE FROM t") {| stdin := []; log := [] |}
     = (Returns false,
        {| stdin := [];
           log := [Execute (lit "DELETE FROM t"); Commit; Fetch;
                   Print (lit "Modified 3 row(s)."); CloseCursor] |}).
Proof.
  split.
  - destruct (execute_sql_without_rows
                (uncommitted_runtime [] (rows_cursor [lit "id"] [[Integer 1]])
                   (lit "cannot commit transaction - SQL statements in progress"))
                {| stdin := []; log := [] |}
                (lit "INSERT INTO t VALUES (7) RETURNING id"))
      as (_ & Hcommit & _).
    apply (Hcommit (rows_cursor [lit "id"] [[Integer 1]])); reflexivity.
  - destruct (execute_sql_without_rows
                (example_runtime []
                   {| description := None; pending := []; fetch_error := None;
                      rowcount := 3%Z |})
                {| stdin := []; log := [] |} (lit "DELETE FROM t"))
      as (_ & _ & Hmut).
    rewrite (Hmut {| description := None; pending := []; fetch_error := None;
                     rowcount := 3%Z |}
               eq_refl eq_refl eq_refl (fun _ => eq_refl)).
    vm_compute. reflexivity.
Defined.

(** ** [import_]: the batches *)

Lemma batch_size_pos : (0 < batch_size)%nat.
Proof. unfold batch_size. lia. Qed.

Lemma chunks_fuel_enough {A} (n : nat) (Hn : (0 < n)%nat) (fuel : nat) :
  forall (fuel' : nat) (l : list A),
    (length l <= fuel)%nat -> (length l <= fuel')%nat ->
    chunks_fuel fuel n l = chunks_fuel fuel' n l.
Proof.
  induction fuel as [|fuel IH]; intros fuel' l Hl Hl'.
  - destruct l; [|cbn in Hl; lia]. destruct fuel'; reflexivity.
  - destruct l as [|x l]; [destruct fuel'; reflexivity|].
    destruct fuel' as [|fuel']; [cbn in Hl'; lia|].
    cbn [chunks_fuel]. f_equal.
    apply IH; rewrite length_drop; cbn [length] in *; lia.
Qed.

Lemma chunks_cons {A} (n : nat) (x : A) (l : list A) :
  (0 < n)%nat ->
  chunks n (x :: l) = take n (x :: l) :: chunks n (drop n (x :: l)).
Proof.
  intros Hn. unfold chunks. cbn [length chunks_fuel]. f_equal.
  apply chunks_fuel_enough; [exact Hn| |lia].
  rewrite length_drop. cbn [length]. lia.
Qed.

(** The pieces put together give the list back; no piece is empty or has
    more than [n] elements; every piece but the last has [n]. *)
Lemma chunks_spec {A} (n : nat) (Hn : (0 < n)%nat) (l : list A) :
  concat (chunks n l) = l
  /\ Forall (fun piece => piece <> [] /\ (length piece <= n)%nat) (chunks n l)
  /\ forall i piece, chunks n l !! i = Some piece ->
       (S i < length (chunks n l))%nat -> length piece = n.
Proof.
  remember (length l) as len eqn:Hlen. revert l Hlen.
  induction (lt_wf len) as [len _ IH]. intros l Hlen.
  destruct l as [|x l]; [repeat split; [constructor | intros i p H; discriminate H]|].
  rewrite chunks_cons by exact Hn.
  destruct (IH (length (drop n (x :: l)))) with (l := drop n (x :: l))
    as (Hcat & Hall & Hfull); [|reflexivity|].
  { rewrite length_drop. subst len. cbn [length]. lia. }
  split; [|split].
  - cbn [concat]. rewrite Hcat. apply take_drop.
  - constructor; [|exact Hall]. split.
    + destruct n; [lia | discriminate].
    + rewrite length_take. lia.
  - intros [|i] piece Hpiece Hlast; cbn in Hpiece.
    + injection Hpiece as <-. cbn [length] in Hlast.
      rewrite length_take. apply Nat.min_l.
      destruct (chunks n (drop n (x :: l))) as [|p ps] eqn:Ec; [cbn in Hlast; lia|].
      destruct (drop n (x :: l)) as [|y t] eqn:Ed; [discriminate Ec|].
      apply (f_equal length) in Ed. rewrite length_drop in Ed.
      cbn [length] in *. lia.
    + apply (Hfull i piece Hpiece). cbn [length] in Hlast. lia.
Qed.

Lemma coerce_rows_Forall2 (max_str_digits : N) (rows : list (list str)) :
  forall values,
    coerce_rows max_str_digits rows = Returns values <->
    Forall2 (fun row vs => coerce_row max_str_digits row = Returns vs) rows values.
Proof.
  induction rows as [|row rows IH]; intros values; cbn [coerce_rows].
  - split.
    + intros [= <-]. constructor.
    + intros H. inversion H. reflexivity.
  - split.
    + destruct (coerce_row max_str_digits row) as [vs| |] eqn:Erow; try discriminate.
      destruct (coerce_rows max_str_digits rows) as [vss| |]; try discriminate.
      intros [= <-]. constructor; [exact Erow | now apply IH].
    + intros H. inversion H as [|? vs ? vss Hrow Hrest]; subst.
      rewrite Hrow. apply IH in Hrest. now rewrite Hrest.
Qed.

Lemma join_question_marks (column_names : list str) :
  map (fun _ : str => lit "?") column_names
  = repeat (lit "?") (length column_names).
Proof.
  induction column_names as [|c cs IH]; [reflexivity|].
  cbn [map length repeat]. now rewrite IH.
Qed.

Lemma create_table_sql_text (table_name : str) (column_names : list str) :
  create_table_sql table_name column_names
  = create_statement table_name column_names.
Proof.
  unfold create_table_sql, create_statement, column_names_sql, quote.
  rewrite <- !app_assoc. reflexivity.
Qed.

Lemma insert_sql_text (table_name : str) (column_names : list str) :
  insert_sql table_name column_names
  = insert_statement table_name column_names.
Proof.
  unfold insert_sql, insert_statement, column_names_sql, quote.
  rewrite join_question_marks, <- !app_assoc. reflexivity.
Qed.

(** Reading a batch from a file that can be read to its end. *)
Lemma read_batch_all (all : list (list str)) (w : world) :
  read_batch {| csv_rows := all; csv_error := None |} w
  = (Returns (take batch_size all,
              {| csv_rows := drop batch_size all; csv_error := None |}),
     after w [ReadBatch]).
Proof.
  rewrite read_batch_run. cbn [csv_rows csv_error].
  destruct (Nat.leb_spec batch_size (length all)) as [Hle|Hgt]; [reflexivity|].
  rewrite take_ge, drop_ge by lia. reflexivity.
Qed.

(** The loop, for the rows [all] that were in the file before the batch
    at hand was read, when every cell can be coerced and the store
    accepts the inserts and commits of the loop: it ends, gives the
    number of rows, and leaves the events of the batches. *)
Lemma import_rows_run (rt : runtime) (table_name : str) (column_names : list str)
    (fuel : nat) :
  forall (all : list (list str)) (values : list (list db_value))
         (count : nat) (w : world),
    all = [] \/ (length (drop batch_size all) < fuel)%nat ->
    coerce_rows (int_max_str_digits rt) all = Returns values ->
    accepts rt (log w)
      (batches_events (insert_statement table_name column_names) count
         (chunks batch_size values)) ->
    import_rows fuel rt table_name column_names count
      (take batch_size all)
      {| csv_rows := drop batch_size all; csv_error := None |} w
    = (Returns (count + length all)%nat,
       after w (batches_events (insert_statement table_name column_names) count
                  (chunks batch_size values))).
Proof.
  pose proof batch_size_pos as Hpos.
  induction fuel as [|fuel IH]; intros all values count w Hfuel Hvalues Hacc;
    apply coerce_rows_Forall2 in Hvalues;
    pose proof (Forall2_length _ _ _ Hvalues) as Hlen;
    (destruct all as [|row all];
     [ inversion Hvalues; subst; rewrite take_nil; cbn;
       rewrite after_nil, Nat.add_0_r; reflexivity |]).
  { destruct Hfuel as [Hfuel|Hfuel]; [discriminate Hfuel | lia]. }
  destruct Hfuel as [Hfuel|Hfuel]; [discriminate Hfuel|].
  destruct values as [|vs values]; [discriminate Hlen|].
  rewrite chunks_cons in Hacc |- * by exact Hpos.
  destruct (take batch_size (row :: all)) as [|r0 t0] eqn:Etake.
  { apply (f_equal length) in Etake. rewrite length_take in Etake.
    cbn [length] in Etake. lia. }
  cbn [import_rows batches_events] in Hacc |- *. rewrite <- Etake.
  assert (Hbatch : coerce_rows (int_max_str_digits rt) (take batch_size (row :: all))
                   = Returns (take batch_size (vs :: values))).
  { apply coerce_rows_Forall2. now apply Forall2_take. }
  assert (Hrest : coerce_rows (int_max_str_digits rt) (drop batch_size (row :: all))
                  = Returns (drop batch_size (vs :: values))).
  { apply coerce_rows_Forall2. now apply Forall2_drop. }
  assert (Hcount : (count + length (take batch_size (row :: all))
                    + length (drop batch_size (row :: all)))%nat
                   = (count + length (row :: all))%nat).
  { rewrite length_take, length_drop. lia. }
  assert (Hsame : length (take batch_size (vs :: values))
                  = length (take batch_size (row :: all))).
  { rewrite !length_take. cbn [length] in *. lia. }
  assert (Hshort : drop batch_size (row :: all) = []
                   \/ (length (drop batch_size (drop batch_size (row :: all)))
                       < fuel)%nat).
  { destruct (drop batch_size (row :: all)) as [|d ds] eqn:Ed; [now left|].
    right. rewrite length_drop. cbn [length] in Hfuel |- *. lia. }
  apply accepts_app in Hacc as [_ Hacc].
  cbn [app accepts] in Hacc. destruct Hacc as (Hinsert & Hcommit & _ & Hacc).
  rewrite Hsame in Hacc.
  rewrite insert_sql_text, bind_run.
  destruct (0 <? count)%nat.
  - rewrite print_run, bind_run. unfold lift. rewrite Hbatch.
    rewrite bind_run, executemany_run.
    unfold after at 1 2, import_progress_message. cbn [log stdin].
    rewrite Hinsert, bind_run, commit_run.
    unfold after at 1 2. cbn [log stdin].
    rewrite Hcommit, bind_run, read_batch_all. cbn [fst snd].
    rewrite (IH _ _ _ _ Hshort Hrest) by exact Hacc.
    unfold after. cbn [stdin log]. rewrite Hcount, Hsame. log_norm. reflexivity.
  - rewrite ret_run, bind_run. unfold lift. rewrite Hbatch.
    rewrite bind_run, executemany_run.
    rewrite app_nil_r in Hinsert, Hcommit, Hacc.
    rewrite Hinsert, bind_run, commit_run.
    unfold after at 1 2. cbn [log stdin].
    rewrite Hcommit, bind_run, read_batch_all. cbn [fst snd].
    rewrite (IH _ _ _ _ Hshort Hrest) by exact Hacc.
    unfold after. cbn [stdin log]. rewrite Hcount, Hsame. log_norm. reflexivity.
Qed.

Lemma batches_events_inserts (sql : str) (batches : list (list (list db_value))) :
  forall count, inserted_batches (batches_events sql count batches) = batches.
Proof.
  induction batches as [|batch batches IH]; intros count; [reflexivity|].
  cbn [batches_events]. unfold inserted_batches in *.
  rewrite omap_app. destruct (0 <? count)%nat; cbn; now rewrite IH.
Qed.

(** The steps of [import_] after [CREATE TABLE] was sent: it is
    committed and the first batch is read. *)
Ltac import_first_batch Hcreate Hcommit :=
  rewrite create_table_sql_text, Hcreate, bind_run, commit_run;
  unfold after at 1 2; cbn [log stdin]; rewrite Hcommit;
  rewrite bind_run, read_batch_all; cbn [fst snd csv_rows]; rewrite bind_run.

(** C7.  [import_] on a file with a good header that can be read to its
    end, for a table name without quotation mark, when every cell can be
    coerced and the store accepts the statements and commits of this
    import.  After creating the table and committing, it reads the rows
    in batches: every read is followed by one [executemany] with the
    statement [INSERT INTO "table" ("c1", "c2", ...) VALUES (?, ?, ...);]
    and the rows read, and one commit, until a read gives nothing.  The
    batches are the rows cut into pieces of 10000 (the last one may be
    shorter, none is empty).  Before every batch but the first it prints
    [Imported n rows...] with the number of rows of the batches before;
    at the end it prints [Imported n row(s).] with the total.  With 10003
    rows there are two batches, of 10000 and of 3 rows, one progress line
    between them, which says 10000, and the total 10003. *)
Theorem import_commits_in_batches (rt : runtime) (w : world)
    (filename table_name : str) (rest : list keys)
    (header_row : list str) (reader : list (list str))
    (column_names : list str) (values : list (list db_value)) (cur : cursor) :
  stdin w = Line filename :: Line table_name :: rest ->
  read_csv rt (log w ++ [Input import_prompt]) filename
    = inr {| csv_rows := header_row :: reader; csv_error := None |} ->
  [] ∉ header_row ->
  to_column_names header_row = Some column_names ->
  quote ∉ table_name ->
  sqlite_execute rt
    (log w ++ [Input import_prompt; OpenRead filename; Input table_prompt])
    (create_statement table_name column_names) = inr cur ->
  coerce_rows (int_max_str_digits rt) reader = Returns values ->
  accepts rt
    (log w ++ [Input import_prompt; OpenRead filename; Input table_prompt;
               Execute (create_statement table_name column_names)])
    (Commit :: ReadBatch
     :: batches_events (insert_statement table_name column_names) 0
          (chunks (N.to_nat 10000) values)) ->
  import_ rt w
  = (Returns tt,
     {| stdin := rest;
        log := log w
               ++ [Input import_prompt; OpenRead filename; Input table_prompt;
                   Execute (create_statement table_name column_names); Commit;
                   ReadBatch]
               ++ batches_events (insert_statement table_name column_names) 0
                    (chunks (N.to_nat 10000) values)
               ++ [Print (lit "Imported "
                            ++ Py.format_N (N.of_nat (length reader))
                            ++ lit " row(s).");
                   Print (lit "Imported table " ++ [34%N] ++ table_name
                            ++ [34%N] ++ lit " with columns: "
                            ++ join (lit ", ") column_names ++ lit ".");
                   CloseFile filename] |})
  /\ concat (chunks (N.to_nat 10000) values) = values
  /\ inserted_batches
       (batches_events (insert_statement table_name column_names) 0
          (chunks (N.to_nat 10000) values))
     = chunks (N.to_nat 10000) values
  /\ Forall (fun batch => batch <> [] /\ (length batch <= N.to_nat 10000)%nat)
       (chunks (N.to_nat 10000) values)
  /\ (forall i batch, chunks (N.to_nat 10000) values !! i = Some batch ->
        (S i < length (chunks (N.to_nat 10000) values))%nat ->
        length batch = N.to_nat 10000)
  /\ (length reader = N.to_nat 10003 ->
      length (take (N.to_nat 10000) values) = N.to_nat 10000
      /\ length (drop (N.to_nat 10000) values) = 3%nat
      /\ batches_events (insert_statement table_name column_names) 0
           (chunks (N.to_nat 10000) values)
         = [ExecuteMany (insert_statement table_name column_names)
              (take (N.to_nat 10000) values);
            Commit; ReadBatch;
            Print (lit "Imported 10000 rows...");
            ExecuteMany (insert_statement table_name column_names)
              (drop (N.to_nat 10000) values);
            Commit; ReadBatch]
      /\ lit "Imported " ++ Py.format_N (N.of_nat (length reader))
           ++ lit " row(s)."
         = lit "Imported 10003 row(s).").
Proof.
  change (N.to_nat 10000) with batch_size.
  intros Hin Hread Hheader Hnames Hquote Hcreate Hvalues Hacc.
  destruct (chunks_spec batch_size batch_size_pos values) as (Hcat & Hall & Hfull).
  split; [|split; [exact Hcat|split; [apply batches_events_inserts|
           split; [exact Hall|split; [exact Hfull|]]]]].
  - cbn [accepts] in Hacc. destruct Hacc as (Hcommit & _ & Hacc).
    rewrite <- !app_assoc in Hacc. cbn [app] in Hacc.
    import_open Hin Hread. import_table Hin Hheader Hnames.
    import_create Hin Hquote.
    import_first_batch Hcreate Hcommit.
    rewrite (import_rows_run rt table_name column_names
               (S (length (drop batch_size reader))) reader values 0 _
               (or_intror (Nat.lt_succ_diag_r _)) Hvalues)
      by (unfold after; cbn [log]; rewrite <- !app_assoc; exact Hacc).
    rewrite bind_run, print_run, print_run.
    unfold after, import_total_message, import_table_message, quote.
    cbn [stdin log plus]. rewrite <- !app_assoc. cbn [app].
    reflexivity.
  - intros Hlen.
    apply coerce_rows_Forall2, Forall2_length in Hvalues.
    assert (Hbs : batch_size = N.to_nat 10000) by reflexivity.
    assert (Hlv : length values = (batch_size + 3)%nat) by lia.
    assert (Ht : length (take batch_size values) = batch_size)
      by (rewrite length_take; lia).
    assert (Hd : length (drop batch_size values) = 3%nat)
      by (rewrite length_drop; lia).
    split; [exact Ht|]. split; [exact Hd|]. split.
    + destruct values as [|v values]; [cbn in Hlv; lia|].
      rewrite chunks_cons by apply batch_size_pos.
      destruct (drop batch_size (v :: values)) as [|d ds] eqn:Ed; [discriminate Hd|].
      rewrite chunks_cons by apply batch_size_pos.
      assert (H3 : (3 <= batch_size)%nat) by (unfold batch_size; lia).
      rewrite (take_ge (d :: ds)) by (rewrite Hd; exact H3).
      rewrite (drop_ge (d :: ds)) by (rewrite Hd; exact H3).
      cbn [batches_events Nat.ltb Nat.leb plus app]. rewrite Ht.
      replace (0 <? batch_size)%nat with true
        by (symmetry; apply Nat.ltb_lt, batch_size_pos).
      unfold chunks. cbn [app chunks_fuel length batches_events].
      rewrite Hbs. reflexivity.
    + rewrite Hlen. vm_compute. reflexivity.
Qed.

Lemma import_commits_in_batches_witness :
  import_ (one_table_runtime example_csv None)
    {| stdin := [Line (lit "numbers.csv"); Line (lit "t")]; log := [] |}
  = (Returns tt,
     {| stdin := [];
        log := [Input (lit "Enter a CSV file to import: ");
                OpenRead (lit "numbers.csv");
                Input (lit "Enter a SQL table name: ");
                Execute (lit "CREATE TABLE " ++ [34%N] ++ lit "t" ++ [34%N]
                           ++ lit " (" ++ [34%N] ++ lit "n" ++ [34%N]
                           ++ lit ", " ++ [34%N] ++ lit "word" ++ [34%N]
                           ++ lit ");");
                Commit; ReadBatch;
                ExecuteMany (lit "INSERT INTO " ++ [34%N] ++ lit "t" ++ [34%N]
                               ++ lit " (" ++ [34%N] ++ lit "n" ++ [34%N]
                               ++ lit ", " ++ [34%N] ++ lit "word" ++ [34%N]
                               ++ lit ") VALUES (?, ?);")
                  (repeat [Integer 7; Text (lit "x")] (N.to_nat 10000));
                Commit; ReadBatch;
                Print (lit "Imported 10000 rows...");
                ExecuteMany (lit "INSERT INTO " ++ [34%N] ++ lit "t" ++ [34%N]
                               ++ lit " (" ++ [34%N] ++ lit "n" ++ [34%N]
                               ++ lit ", " ++ [34%N] ++ lit "word" ++ [34%N]
                               ++ lit ") VALUES (?, ?);")
                  (repeat [Integer 7; Text (lit "x")] 3);
                Commit; ReadBatch;
                Print (lit "Imported 10003 row(s).");
                Print (lit "Imported table " ++ [34%N] ++ lit "t" ++ [34%N]
                         ++ lit " with columns: n, word.");
                CloseFile (lit "numbers.csv")] |}).
Proof.
  destruct (import_commits_in_batches
              (one_table_runtime example_csv None)
              {| stdin := [Line (lit "numbers.csv"); Line (lit "t")]; log := [] |}
              (lit "numbers.csv") (lit "t") [] [lit "n"; lit "word"] example_rows
              [lit "n"; lit "word"]
              (repeat [Integer 7; Text (lit "x")] (N.to_nat 10003))
              no_rows_cursor)
    as [Hrun _].
  - reflexivity.
  - reflexivity.
  - repeat (apply not_elem_of_cons; split; [discriminate|]).
    apply not_elem_of_nil.
  - vm_compute. reflexivity.
  - apply not_elem_of_cons. split; [discriminate | apply not_elem_of_nil].
  - vm_compute. reflexivity.
  - vm_compute. reflexivity.
  - vm_compute. repeat split.
  - rewrite Hrun. vm_compute. reflexivity.
Defined.

(** ** [import_]: a cell that cannot be coerced, a row that cannot be read *)

(** The loop when the rows [good], some full batches, can be coerced and
    the batch after them cannot: the full batches are inserted and
    committed, the count is printed for the batch that fails, and the
    exception ends the loop. *)
Lemma import_rows_fails (rt : runtime) (table_name : str) (column_names : list str)
    (bad : list (list str)) (e : exception)
    (Hbad : coerce_rows (int_max_str_digits rt) (take batch_size bad) = Raises e)
    (fuel : nat) :
  forall (k : nat) (good : list (list str)) (values : list (list db_value))
         (count : nat) (w : world),
    (length (drop batch_size (good ++ bad)) < fuel)%nat ->
    length good = (k * batch_size)%nat ->
    coerce_rows (int_max_str_digits rt) good = Returns values ->
    accepts rt (log w)
      (batches_events (insert_statement table_name column_names) count
         (chunks batch_size values)) ->
    import_rows fuel rt table_name column_names count
      (take batch_size (good ++ bad))
      {| csv_rows := drop batch_size (good ++ bad); csv_error := None |} w
    = (Raises e,
       after w (batches_events (insert_statement table_name column_names) count
                  (chunks batch_size values)
                ++ if (0 <? count + length good)%nat
                   then [Print (lit "Imported "
                                  ++ Py.format_N (N.of_nat (count + length good))
                                  ++ lit " rows...")]
                   else [])).
Proof.
  pose proof batch_size_pos as Hpos.
  assert (Hsome : bad <> []).
  { intros ->. rewrite take_nil in Hbad. discriminate Hbad. }
  induction fuel as [|fuel IH]; intros k good values count w Hfuel Hk Hvalues Hacc;
    [lia|].
  apply coerce_rows_Forall2 in Hvalues.
  pose proof (Forall2_length _ _ _ Hvalues) as Hlen.
  destruct good as [|g good].
  - inversion Hvalues; subst. cbn [app length]. rewrite Nat.add_0_r.
    destruct (take batch_size bad) as [|r0 t0] eqn:Etake; [discriminate Hbad|].
    cbn [import_rows]. rewrite bind_run.
    destruct (0 <? count)%nat.
    + rewrite print_run, bind_run. unfold lift. rewrite Hbad. reflexivity.
    + rewrite ret_run, bind_run. unfold lift. rewrite Hbad.
      now rewrite after_nil.
  - destruct values as [|v values]; [discriminate Hlen|].
    destruct k as [|k]; [cbn in Hk; lia|].
    assert (Hfull : (batch_size <= length (g :: good))%nat) by (rewrite Hk; lia).
    rewrite drop_app_le in Hfuel by exact Hfull.
    rewrite take_app_le, drop_app_le by exact Hfull.
    rewrite chunks_cons in Hacc |- * by exact Hpos.
    destruct (take batch_size (g :: good)) as [|r0 t0] eqn:Etake.
    { apply (f_equal length) in Etake. rewrite length_take in Etake.
      cbn [length] in Etake, Hfull. lia. }
    cbn [import_rows batches_events] in Hacc |- *. rewrite <- Etake.
    assert (Hbatch : coerce_rows (int_max_str_digits rt) (take batch_size (g :: good))
                     = Returns (take batch_size (v :: values))).
    { apply coerce_rows_Forall2. now apply Forall2_take. }
    assert (Hrest : coerce_rows (int_max_str_digits rt) (drop batch_size (g :: good))
                    = Returns (drop batch_size (v :: values))).
    { apply coerce_rows_Forall2. now apply Forall2_drop. }
    assert (Htake : length (take batch_size (g :: good)) = batch_size)
      by (rewrite length_take; lia).
    assert (Hsame : length (take batch_size (v :: values)) = batch_size)
      by (rewrite length_take; lia).
    assert (Hdrop : length (drop batch_size (g :: good)) = (k * batch_size)%nat).
    { rewrite length_drop, Hk. cbn [Nat.mul]. lia. }
    assert (Hshort : (length (drop batch_size (drop batch_size (g :: good) ++ bad))
                      < fuel)%nat).
    { rewrite length_drop. rewrite length_app in Hfuel |- *.
      destruct bad; [congruence|]. cbn [length] in Hfuel |- *. lia. }
    assert (Hcount : (count + batch_size + length (drop batch_size (g :: good)))%nat
                     = (count + length (g :: good))%nat).
    { rewrite Hdrop, Hk. cbn [Nat.mul]. lia. }
    apply accepts_app in Hacc as [_ Hacc].
    cbn [app accepts] in Hacc. destruct Hacc as (Hinsert & Hcommit & _ & Hacc).
    rewrite Hsame in Hacc.
    rewrite insert_sql_text, bind_run.
    destruct (0 <? count)%nat.
    + rewrite print_run, bind_run. unfold lift. rewrite Hbatch.
      rewrite bind_run, executemany_run.
      unfold after at 1 2, import_progress_message. cbn [log stdin].
      rewrite Hinsert, bind_run, commit_run.
      unfold after at 1 2. cbn [log stdin].
      rewrite Hcommit, bind_run, read_batch_all. cbn [fst snd].
      rewrite Htake, (IH k _ _ _ _ Hshort Hdrop Hrest) by exact Hacc.
      unfold after. cbn [stdin log]. rewrite Hcount, Hsame.
      log_norm. reflexivity.
    + rewrite ret_run, bind_run. unfold lift. rewrite Hbatch.
      rewrite bind_run, executemany_run.
      rewrite app_nil_r in Hinsert, Hcommit, Hacc.
      rewrite Hinsert, bind_run, commit_run.
      unfold after at 1 2. cbn [log stdin].
      rewrite Hcommit, bind_run, read_batch_all. cbn [fst snd].
      rewrite Htake, (IH k _ _ _ _ Hshort Hdrop Hrest) by exact Hacc.
      unfold after. cbn [stdin log]. rewrite Hcount, Hsame.
      log_norm. reflexivity.
Qed.

(** When a cell cannot be coerced, [import_] stops with the exception of
    [to_db_value] and undoes nothing: the table stays created and
    committed, and the batches of 10000 rows before the one with the cell
    stay inserted and committed, each with its own statement.  The batch
    with the cell was read and its line [Imported n rows...] printed, but
    it is not inserted.  Here [good] are the rows of the full batches
    before, [bad] the rows from the failing batch on, the file can be
    read to its end, and the store accepts the statements and commits
    made before the failure. *)
Theorem import_keeps_earlier_batches (rt : runtime) (w : world)
    (filename table_name : str) (rest : list keys) (header_row : list str)
    (good bad : list (list str)) (column_names : list str)
    (values : list (list db_value)) (cur : cursor) (e : exception) (k : nat) :
  stdin w = Line filename :: Line table_name :: rest ->
  read_csv rt (log w ++ [Input import_prompt]) filename
    = inr {| csv_rows := header_row :: good ++ bad; csv_error := None |} ->
  [] ∉ header_row ->
  to_column_names header_row = Some column_names ->
  quote ∉ table_name ->
  sqlite_execute rt
    (log w ++ [Input import_prompt; OpenRead filename; Input table_prompt])
    (create_statement table_name column_names) = inr cur ->
  length good = (k * N.to_nat 10000)%nat ->
  coerce_rows (int_max_str_digits rt) good = Returns values ->
  coerce_rows (int_max_str_digits rt) (take (N.to_nat 10000) bad) = Raises e ->
  accepts rt
    (log w ++ [Input import_prompt; OpenRead filename; Input table_prompt;
               Execute (create_statement table_name column_names)])
    (Commit :: ReadBatch
     :: batches_events (insert_statement table_name column_names) 0
          (chunks (N.to_nat 10000) values)) ->
  import_ rt w
  = (Raises e,
     {| stdin := rest;
        log := log w
               ++ [Input import_prompt; OpenRead filename; Input table_prompt;
                   Execute (create_statement table_name column_names); Commit;
                   ReadBatch]
               ++ batches_events (insert_statement table_name column_names) 0
                    (chunks (N.to_nat 10000) values)
               ++ (if (0 <? length good)%nat
                   then [Print (lit "Imported "
                                  ++ Py.format_N (N.of_nat (length good))
                                  ++ lit " rows...")]
                   else [])
               ++ [CloseFile filename] |})
  /\ inserted_batches
       (batches_events (insert_statement table_name column_names) 0
          (chunks (N.to_nat 10000) values))
     = chunks (N.to_nat 10000) values
  /\ concat (chunks (N.to_nat 10000) values) = values.
Proof.
  change (N.to_nat 10000) with batch_size.
  intros Hin Hread Hheader Hnames Hquote Hcreate Hk Hvalues Hbad Hacc.
  destruct (chunks_spec batch_size batch_size_pos values) as (Hcat & Hall & Hfull).
  split; [|split; [apply batches_events_inserts|exact Hcat]].
  cbn [accepts] in Hacc. destruct Hacc as (Hcommit & _ & Hacc).
  rewrite <- !app_assoc in Hacc. cbn [app] in Hacc.
  import_open Hin Hread. import_table Hin Hheader Hnames.
  import_create Hin Hquote.
  import_first_batch Hcreate Hcommit.
  rewrite (import_rows_fails rt table_name column_names bad e Hbad
             (S (length (drop batch_size (good ++ bad)))) k good values 0 _
             (Nat.lt_succ_diag_r _) Hk Hvalues)
    by (unfold after; cbn [log]; rewrite <- !app_assoc; exact Hacc).
  unfold after. cbn [stdin log plus]. log_norm. reflexivity.
Qed.

Lemma import_keeps_earlier_batches_witness :
  import_ (one_table_runtime
             ([lit "n"; lit "word"]
                :: repeat [lit "7"; lit "x"] (N.to_nat 10000)
                ++ [[huge_integer_cell; lit "y"]; [lit "8"; lit "z"]])
             None)
    {| stdin := [Line (lit "numbers.csv"); Line (lit "t")]; log := [] |}
  = (Raises OverflowError,
     {| stdin := [];
        log := [Input (lit "Enter a CSV file to import: ");
                OpenRead (lit "numbers.csv");
                Input (lit "Enter a SQL table name: ");
                Execute (lit "CREATE TABLE " ++ [34%N] ++ lit "t" ++ [34%N]
                           ++ lit " (" ++ [34%N] ++ lit "n" ++ [34%N]
                           ++ lit ", " ++ [34%N] ++ lit "word" ++ [34%N]
                           ++ lit ");");
                Commit; ReadBatch;
                ExecuteMany (lit "INSERT INTO " ++ [34%N] ++ lit "t" ++ [34%N]
                               ++ lit " (" ++ [34%N] ++ lit "n" ++ [34%N]
                               ++ lit ", " ++ [34%N] ++ lit "word" ++ [34%N]
                               ++ lit ") VALUES (?, ?);")
                  (repeat [Integer 7; Text (lit "x")] (N.to_nat 10000));
                Commit; ReadBatch;
                Print (lit "Imported 10000 rows...");
                CloseFile (lit "numbers.csv")] |}).
Proof.
  destruct (import_keeps_earlier_batches
              (one_table_runtime
                 ([lit "n"; lit "word"]
                    :: repeat [lit "7"; lit "x"] (N.to_nat 10000)
                    ++ [[huge_integer_cell; lit "y"]; [lit "8"; lit "z"]])
                 None)
              {| stdin := [Line (lit "numbers.csv"); Line (lit "t")]; log := [] |}
              (lit "numbers.csv") (lit "t") [] [lit "n"; lit "word"]
              (repeat [lit "7"; lit "x"] (N.to_nat 10000))
              [[huge_integer_cell; lit "y"]; [lit "8"; lit "z"]]
              [lit "n"; lit "word"]
              (repeat [Integer 7; Text (lit "x")] (N.to_nat 10000))
              no_rows_cursor OverflowError 1)
    as [Hrun _].
  - reflexivity.
  - reflexivity.
  - repeat (apply not_elem_of_cons; split; [discriminate|]).
    apply not_elem_of_nil.
  - vm_compute. reflexivity.
  - apply not_elem_of_cons. split; [discriminate | apply not_elem_of_nil].
  - vm_compute. reflexivity.
  - vm_compute. reflexivity.
  - vm_compute. reflexivity.
  - vm_compute. reflexivity.
  - vm_compute. repeat split.
  - rewrite Hrun. vm_compute. reflexivity.
Defined.

(** The rows of the file are read while the import goes on, so that a
    row that cannot be read is met after the table was created: when the
    reader fails in the first batch (before 10000 rows were read),
    [import_] raises its error with the table created and committed and
    no row inserted; the file is closed. *)
Theorem import_stops_at_reader_error (rt : runtime) (w : world)
    (filename table_name : str) (rest : list keys) (header_row : list str)
    (reader : list (list str)) (column_names : list str) (cur : cursor)
    (e : exception) :
  stdin w = Line filename :: Line table_name :: rest ->
  read_csv rt (log w ++ [Input import_prompt]) filename
    = inr {| csv_rows := header_row :: reader; csv_error := Some e |} ->
  (length reader < N.to_nat 10000)%nat ->
  [] ∉ header_row ->
  to_column_names header_row = Some column_names ->
  quote ∉ table_name ->
  sqlite_execute rt
    (log w ++ [Input import_prompt; OpenRead filename; Input table_prompt])
    (create_statement table_name column_names) = inr cur ->
  sqlite_commit rt
    (log w ++ [Input import_prompt; OpenRead filename; Input table_prompt;
               Execute (create_statement table_name column_names)]) = None ->
  import_ rt w
  = (Raises e,
     {| stdin := rest;
        log := log w
               ++ [Input import_prompt; OpenRead filename; Input table_prompt;
                   Execute (create_statement table_name column_names); Commit;
                   ReadBatch; CloseFile filename] |}).
Proof.
  change (N.to_nat 10000) with batch_size.
  intros Hin Hread Hshort Hheader Hnames Hquote Hcreate Hcommit.
  import_open Hin Hread. import_table Hin Hheader Hnames.
  import_create Hin Hquote.
  rewrite create_table_sql_text, Hcreate, bind_run, commit_run.
  unfold after at 1 2. cbn [log stdin]. rewrite Hcommit.
  rewrite bind_run, read_batch_run. cbn [csv_rows csv_error].
  replace (batch_size <=? length reader)%nat with false
    by (symmetry; apply Nat.leb_gt; exact Hshort).
  unfold after. cbn [stdin log]. log_norm. reflexivity.
Qed.

Lemma import_stops_at_reader_error_witness :
  import_ (one_table_runtime [[lit "n"; lit "word"]; [lit "7"; lit "x"]]
             (Some (CsvError (lit "line contains NUL"))))
    {| stdin := [Line (lit "numbers.csv"); Line (lit "t")]; log := [] |}
  = (Raises (CsvError (lit "line contains NUL")),
     {| stdin := [];
        log := [] ++ [Input import_prompt; OpenRead (lit "numbers.csv");
                      Input table_prompt;
                      Execute (create_statement (lit "t") [lit "n"; lit "word"]);
                      Commit; ReadBatch; CloseFile (lit "numbers.csv")] |}).
Proof.
  apply (import_stops_at_reader_error
           (one_table_runtime [[lit "n"; lit "word"]; [lit "7"; lit "x"]]
              (Some (CsvError (lit "line contains NUL"))))
           {| stdin := [Line (lit "numbers.csv"); Line (lit "t")]; log := [] |}
           (lit "numbers.csv") (lit "t") [] [lit "n"; lit "word"]
           [[lit "7"; lit "x"]] [lit "n"; lit "word"] no_rows_cursor).
  - reflexivity.
  - reflexivity.
  - apply Nat.ltb_lt. vm_compute. reflexivity.
  - repeat (apply not_elem_of_cons; split; [discriminate|]).
    apply not_elem_of_nil.
  - vm_compute. reflexivity.
  - apply not_elem_of_cons. split; [discriminate | apply not_elem_of_nil].
  - vm_compute. reflexivity.
  - reflexivity.
Defined.

(** When the commit after [CREATE TABLE] fails, [import_] raises the
    error of the commit: no row is read or inserted, and the file is
    closed. *)
Theorem import_create_not_committed (rt : runtime) (w : world)
    (filename table_name : str) (rest : list keys) (header_row : list str)
    (reader : list (list str)) (error : option exception)
    (column_names : list str) (cur : cursor) (e : exception) :
  stdin w = Line filename :: Line table_name :: rest ->
  read_csv rt (log w ++ [Input import_prompt]) filename
    = inr {| csv_rows := header_row :: reader; csv_error := error |} ->
  [] ∉ header_row ->
  to_column_names header_row = Some column_names ->
  quote ∉ table_name ->
  sqlite_execute rt
    (log w ++ [Input import_prompt; OpenRead filename; Input table_prompt])
    (create_statement table_name column_names) = inr cur ->
  sqlite_commit rt
    (log w ++ [Input import_prompt; OpenRead filename; Input table_prompt;
               Execute (create_statement table_name column_names)]) = Some e ->
  import_ rt w
  = (Raises e,
     {| stdin := rest;
        log := log w
               ++ [Input import_prompt; OpenRead filename; Input table_prompt;
                   Execute (create_statement table_name column_names); Commit;
                   CloseFile filename] |}).
Proof.
  intros Hin Hread Hheader Hnames Hquote Hcreate Hcommit.
  import_open Hin Hread. import_table Hin Hheader Hnames.
  import_create Hin Hquote.
  rewrite create_table_sql_text, Hcreate, bind_run, commit_run.
  unfold after at 1 2. cbn [log stdin]. rewrite Hcommit.
  unfold after. cbn [stdin log]. log_norm. reflexivity.
Qed.

Lemma import_create_not_committed_witness :
  import_ (uncommitted_runtime [[lit "n"]; [lit "7"]] no_rows_cursor
             (lit "FOREIGN KEY constraint failed"))
    {| stdin := [Line (lit "numbers.csv"); Line (lit "t")]; log := [] |}
  = (Raises (DatabaseError (lit "FOREIGN KEY constraint failed")),
     {| stdin := [];
        log := [] ++ [Input import_prompt; OpenRead (lit "numbers.csv");
                      Input table_prompt;
                      Execute (create_statement (lit "t") [lit "n"]); Commit;
                      CloseFile (lit "numbers.csv")] |}).
Proof.
  apply (import_create_not_committed
           (uncommitted_runtime [[lit "n"]; [lit "7"]] no_rows_cursor
              (lit "FOREIGN KEY constraint failed"))
           {| stdin := [Line (lit "numbers.csv"); Line (lit "t")]; log := [] |}
           (lit "numbers.csv") (lit "t") [] [lit "n"] [[lit "7"]] None
           [lit "n"] no_rows_cursor).
  - reflexivity.
  - reflexivity.
  - apply not_elem_of_cons. split; [discriminate | apply not_elem_of_nil].
  - vm_compute. reflexivity.
  - apply not_elem_of_cons. split; [discriminate | apply not_elem_of_nil].
  - reflexivity.
  - reflexivity.
Defined.

(** ** [run_repl] and [last_query] *)








(** ** [run_repl]: how a session ends *)










Lemma settled_try_except {A} (body : M A) (handler : exception -> M A) :
  settled body -> (forall e, settled (handler e)) ->
  settled (try_except body handler).
Proof.
  intros Hb Hh w. rewrite try_except_run. specialize (Hb w).
  destruct (body w) as [[a|e|] w1]; cbn [fst snd] in *; try tauto.
  destruct (is_exception e).
  - destruct (Hh e w1) as [H1 H2]. split; [exact H1 | lia].
  - split; [discriminate | tauto].
Qed.





















